(** * chatbotwithvoice.py: the voice/text chat script, embedded in Rocq

    The Streamlit script [src/chatbotwithvoice.py] is executed top to bottom
    once per user interaction.  Its only persistent data is
    [st.session_state] (the conversation and the path of the last
    recording); everything else is a call into the audio device, the
    filesystem, the OpenAI endpoints or the speech engine.

    The embedding is shallow: every helper and every handler of the script
    is a computation in a small state-and-exception monad over a [World]
    (session state, temporary files, what was rendered and requested), and
    the outside world is a record of oracles [Env] the handlers consult. *)

From Stdlib Require Import ZArith QArith String Ascii DecimalString.
From stdpp Require Import base option list gmap.

Local Open Scope Z_scope.

(** ** Python text

    A Python [str] is a sequence of Unicode code points.  Literals of the
    script that are plain ASCII are written with [py]. *)

Abbreviation pystr := (list N).

Definition py (s : string) : pystr :=
  map N_of_ascii (list_ascii_of_string s).

(** [str.isspace] on one code point: the code points CPython treats as
    whitespace, which are the ones [str.strip()] removes. *)
Definition isspace (c : N) : bool :=
  ((9 <=? c) && (c <=? 13) || (28 <=? c) && (c <=? 32)
   || (c =? 133) || (c =? 160) || (c =? 5760)
   || (8192 <=? c) && (c <=? 8202)
   || (c =? 8232) || (c =? 8233) || (c =? 8239) || (c =? 8287)
   || (c =? 12288))%N.

Fixpoint lstrip (s : pystr) : pystr :=
  match s with
  | [] => []
  | c :: r => if isspace c then lstrip r else s
  end.

Fixpoint rstrip (s : pystr) : pystr :=
  match s with
  | [] => []
  | c :: r =>
      match rstrip r with
      | [] => if isspace c then [] else [c]
      | r' => c :: r'
      end
  end.

(** [s.strip()] *)
Definition strip (s : pystr) : pystr := rstrip (lstrip s).

(** [str(n)] for an [int], as an f-string formats it. *)
Definition str_of_int (n : Z) : pystr :=
  py (NilZero.string_of_int (Z.to_int n)).

(** ** Data model *)

(** The three values the ["role"] key of a message takes in the script. *)
Inductive Role := system | user | assistant.

(** A message dict [{"role": ..., "content": ...}]. *)
Record Turn := { role : Role; content : pystr }.

(** [st.session_state]: the two keys the script keeps. *)
Record Session := {
  messages : list Turn;
  last_record_path : option pystr
}.

(** A 32-bit float sample, as its bit pattern. *)
Abbreviation float32 := Z (only parsing).

(** What a path of the temporary directory holds: the empty file
    [NamedTemporaryFile] creates, or the WAV [sf.write] stores (sample
    rate and a frames-by-channels array). *)
Inductive File :=
| EmptyFile
| Wav (samplerate : Z) (data : list (list float32)).

(** The body of [client.chat.completions.create(...)]. *)
Record ChatRequest := {
  req_model : pystr;
  req_messages : list Turn;
  req_temperature : Q
}.

(** One element of [response.choices]; [message.content] may be [None]. *)
Record Choice := { message_content : option pystr }.

(** What the script renders, requests or plays, in order. *)
Inductive Event :=
| St_error (msg : pystr)
| St_warning (msg : pystr)
| St_info (msg : pystr)
| St_success (msg : pystr)
| St_audio (path : pystr)
| St_markdown (msg : pystr)
| St_chat_message (r : Role) (msg : pystr)
| Transcription_create (model : pystr) (f : File)
| Chat_create (req : ChatRequest)
| Tts_say (text : pystr) (rate : option Z).

Record World := {
  session : Session;
  files : gmap pystr File;
  shown : list Event
}.

(** The outside world during one run of the script. *)
Record Env := {
  HAVE_SOUNDDEVICE : bool;
  HAVE_TTS : bool;
  OPENAI_API_KEY : option pystr;
  (* sd.rec / sd.wait: an exception text, or the samples of the microphone *)
  rec_fault : option pystr;
  mic : nat -> nat -> float32;
  (* tempfile.NamedTemporaryFile: the fresh name it picks, or an exception *)
  tmp_fault : option pystr;
  tmp_name : pystr;
  (* sf.write *)
  write_fault : option pystr;
  (* os.remove on an existing file *)
  remove_fault : option pystr;
  (* the transcription endpoint: the [text] of the answer, or an exception *)
  whisper : File -> pystr + pystr;
  (* the chat endpoint: [response.choices], or an exception *)
  gpt : ChatRequest -> list Choice + pystr;
  (* pyttsx3: init/say/runAndWait raising, setProperty raising *)
  tts_fault : option pystr;
  tts_rate_fault : bool
}.

(** The widgets of one run: sidebar settings and which control fired. *)
Record Widgets := {
  model_choice : nat;
  tts_rate : Z;
  record_seconds : Z;
  auto_speak : bool;
  record_clicked : bool;
  clear_recording_clicked : bool;
  text_input : option pystr;
  clear_chat_clicked : bool
}.

(** ** The script monad: state, exceptions and Streamlit's rerun *)

(** A computation of the script ends normally, with an exception nobody
    caught, or because Streamlit halted the run ([st.stop()], or
    [st.experimental_rerun()] which asks for the script to run again). *)
Inductive Outcome (A : Type) :=
| Done (a : A) (w : World)
| Raised (e : pystr) (w : World)
| Halt (again : bool) (w : World).
Arguments Done {A} a w.
Arguments Raised {A} e w.
Arguments Halt {A} again w.

Definition M (A : Type) : Type := World -> Outcome A.

Definition ret {A} (a : A) : M A := fun w => Done a w.

Definition bind {A B} (m : M A) (k : A -> M B) : M B :=
  fun w =>
    match m w with
    | Done a w' => k a w'
    | Raised e w' => Raised e w'
    | Halt again w' => Halt again w'
    end.

Declare Scope script_scope.
Delimit Scope script_scope with script.
Notation "x <- m ;; k" := (bind m (fun x => k))
  (at level 100, m at next level, right associativity) : script_scope.
Notation "m ;; k" := (bind m (fun _ => k))
  (at level 100, right associativity) : script_scope.
Local Open Scope script_scope.

Definition raise {A} (e : pystr) : M A := fun w => Raised e w.

(** [try: body except Exception as e: handler] *)
Definition try_except {A} (body : M A) (handler : pystr -> M A) : M A :=
  fun w =>
    match body w with
    | Raised e w' => handler e w'
    | o => o
    end.

Definition emit (ev : Event) : M unit :=
  fun w => Done tt {| session := session w; files := files w;
                      shown := shown w ++ [ev] |}.

Definition get_session : M Session := fun w => Done (session w) w.

Definition put_session (s : Session) : M unit :=
  fun w => Done tt {| session := s; files := files w; shown := shown w |}.

Definition get_files : M (gmap pystr File) := fun w => Done (files w) w.

Definition put_files (fs : gmap pystr File) : M unit :=
  fun w => Done tt {| session := session w; files := fs; shown := shown w |}.

(** [st.session_state["messages"].append(t)] *)
Definition append (t : Turn) (ms : list Turn) : list Turn := ms ++ [t].

Definition messages_append (t : Turn) : M unit :=
  s <- get_session;;
  put_session {| messages := append t (messages s);
                 last_record_path := last_record_path s |}.

Definition set_last_record_path (p : option pystr) : M unit :=
  s <- get_session;;
  put_session {| messages := messages s; last_record_path := p |}.

Definition set_messages (ms : list Turn) : M unit :=
  s <- get_session;;
  put_session {| messages := ms; last_record_path := last_record_path s |}.

Definition st_error (msg : pystr) : M unit := emit (St_error msg).
Definition st_warning (msg : pystr) : M unit := emit (St_warning msg).
Definition st_info (msg : pystr) : M unit := emit (St_info msg).
Definition st_success (msg : pystr) : M unit := emit (St_success msg).
Definition st_audio (path : pystr) : M unit := emit (St_audio path).
Definition st_markdown (msg : pystr) : M unit := emit (St_markdown msg).
Definition st_chat_message (r : Role) (msg : pystr) : M unit :=
  emit (St_chat_message r msg).
Definition st_stop : M unit := fun w => Halt false w.
Definition st_experimental_rerun : M unit := fun w => Halt true w.

(** ** The libraries the script calls *)

(** [sd.rec(frames, samplerate=.., channels=.., dtype="float32")] and the
    [sd.wait()] after it: an array of [frames] rows and [channels] columns
    filled from the input device. *)
Definition sd_rec (env : Env) (frames samplerate : Z) (channels : nat)
  : M (list (list float32)) :=
  match rec_fault env with
  | Some e => raise e
  | None =>
      if frames <? 0 then raise (py "negative dimensions are not allowed")
      else ret (map (fun i => map (mic env i) (seq 0 channels))
                    (seq 0 (Z.to_nat frames)))
  end.

(** [tempfile.NamedTemporaryFile(delete=False, suffix=...)]: creates an
    empty file and gives its name.  The name is the one the oracle picks;
    that it is a name no file has, as the real call guarantees, is a
    hypothesis of the statements that depend on it. *)
Definition NamedTemporaryFile (env : Env) (suffix : pystr) : M pystr :=
  match tmp_fault env with
  | Some e => raise e
  | None =>
      let name := tmp_name env ++ suffix in
      fs <- get_files;;
      put_files (<[name := EmptyFile]> fs);;
      ret name
  end.

(** [sf.write(path, data, samplerate)] *)
Definition sf_write (env : Env) (path : pystr) (data : list (list float32))
    (samplerate : Z) : M unit :=
  match write_fault env with
  | Some e => raise e
  | None =>
      fs <- get_files;;
      put_files (<[path := Wav samplerate data]> fs)
  end.

(** [open(path, "rb")] *)
Definition open_rb (path : pystr) : M File :=
  fs <- get_files;;
  match fs !! path with
  | Some f => ret f
  | None => raise (py "No such file or directory")
  end.

(** [os.remove(path)] *)
Definition os_remove (env : Env) (path : pystr) : M unit :=
  fs <- get_files;;
  match fs !! path with
  | None => raise (py "No such file or directory")
  | Some _ =>
      match remove_fault env with
      | Some e => raise e
      | None => put_files (delete path fs)
      end
  end.

(** [client.audio.transcriptions.create(model=.., file=f)], giving the
    [text] of the transcript. *)
Definition transcriptions_create (env : Env) (model : pystr) (f : File)
  : M pystr :=
  emit (Transcription_create model f);;
  match whisper env f with
  | inl text => ret text
  | inr e => raise e
  end.

(** [client.chat.completions.create(...)], giving [response.choices]. *)
Definition chat_completions_create (env : Env) (req : ChatRequest)
  : M (list Choice) :=
  emit (Chat_create req);;
  match gpt env req with
  | inl choices => ret choices
  | inr e => raise e
  end.

(** The pyttsx3 engine of one call: [init], [setProperty("rate", rate)]
    with its own [try/except: pass], [say], [runAndWait], [stop]. *)
Definition pyttsx3_say (env : Env) (text : pystr) (rate : Z) : M unit :=
  match tts_fault env with
  | Some e => raise e
  | None => emit (Tts_say text (if tts_rate_fault env then None else Some rate))
  end.

(** ** Helpers of the script (lines 67-128) *)

Definition record_local (env : Env) (duration_seconds samplerate : Z)
  : M (option pystr) :=
  if negb (HAVE_SOUNDDEVICE env) then
    st_error (py "sounddevice or soundfile not installed. Install: pip install sounddevice soundfile");;
    ret None
  else
    try_except
      (recording <- sd_rec env (duration_seconds * samplerate) samplerate 1;;
       tmp <- NamedTemporaryFile env (py ".wav");;
       sf_write env tmp recording samplerate;;
       ret (Some tmp))
      (fun e => st_error (py "Recording failed: " ++ e);; ret None).

Definition transcribe_with_openai_whisper (env : Env) (wav_path : pystr)
  : M (option pystr) :=
  try_except
    (f <- open_rb wav_path;;
     text <- transcriptions_create env (py "gpt-4o-mini-transcribe") f;;
     ret (Some (strip text)))
    (fun e => st_error (py "Transcription error: " ++ e);; ret None).

Definition speak_text_local (env : Env) (text : pystr) (rate : Z) : M bool :=
  if negb (HAVE_TTS env) then ret false
  else
    try_except
      (pyttsx3_say env text rate;; ret true)
      (fun e => st_warning (py "TTS error: " ++ e);; ret false).

(** The keyword arguments [call_openai_chat] passes. *)
Definition chat_request (msgs : list Turn) : ChatRequest :=
  {| req_model := py "gpt-4o-mini";
     req_messages := msgs;
     req_temperature := 6 # 10 |}.

Definition call_openai_chat (env : Env) (msgs : list Turn) : M (option pystr) :=
  try_except
    (choices <- chat_completions_create env (chat_request msgs);;
     first <- match choices with
              | c :: _ => ret c
              | [] => raise (py "list index out of range")
              end;;
     text <- match message_content first with
             | Some t => ret t
             | None => raise (py "'NoneType' object has no attribute 'strip'")
             end;;
     ret (Some (strip text)))
    (fun e => st_error (py "OpenAI call failed: " ++ e);; ret None).

(** The emoji that opens two texts of the script: U+26A0 U+FE0F. *)
Definition warning_sign : pystr := [9888; 65039]%N.

(** ** Session state (lines 59-62) *)

Definition system_prompt : Turn :=
  {| role := system;
     content := py "You are a helpful, concise AI assistant." |}.

(** What the two [if ... not in st.session_state] blocks store in a new
    session; in every later run both keys are present and the blocks do
    nothing. *)
Definition fresh_session : Session :=
  {| messages := [system_prompt]; last_record_path := None |}.

Definition fresh_world : World :=
  {| session := fresh_session; files := ∅; shown := [] |}.

(** ** Sidebar (lines 134-137) *)

Definition model_options : list pystr := [py "gpt-4o-mini"].

(** [st.sidebar.selectbox(label, options, index=0)]: the option the user
    picked. *)
Definition selectbox (options : list pystr) (choice : nat) : pystr :=
  nth choice options [].

(** The ranges the sidebar widgets enforce on what they return. *)
Definition widgets_ok (ui : Widgets) : Prop :=
  (model_choice ui < length model_options)%nat
  /\ 120 <= tts_rate ui <= 200
  /\ 1 <= record_seconds ui <= 20.

(** ** Handlers (lines 147-225) *)

(** The text of line 182 and line 213. *)
Definition placeholder : pystr :=
  warning_sign ++ py " Could not get a reply from OpenAI.".

(** [for msg in st.session_state["messages"][1:]: ...] *)
Fixpoint show_turns (ms : list Turn) : M unit :=
  match ms with
  | [] => ret tt
  | msg :: rest =>
      st_chat_message (role msg) (content msg);;
      show_turns rest
  end.

Definition show_history : M unit :=
  s <- get_session;;
  show_turns (drop 1 (messages s)).

(** Lines 178-187, repeated word for word as lines 209-217: ask for the
    reply, fall back on the placeholder, show it, store it, speak it. *)
Definition reply_block (env : Env) (ui : Widgets) : M unit :=
  s <- get_session;;
  reply <- call_openai_chat env (messages s);;
  let reply := match reply with
               | None => placeholder
               | Some r => r
               end in
  st_chat_message assistant reply;;
  messages_append {| role := assistant; content := reply |};;
  if auto_speak ui && HAVE_TTS env then
    speak_text_local env reply (tts_rate ui);; ret tt
  else ret tt.

(** [if st.button("Record"):] (lines 158-189) *)
Definition record_button (env : Env) (ui : Widgets) : M unit :=
  if negb (HAVE_SOUNDDEVICE env) then
    st_error (py "sounddevice not available. Install sounddevice and soundfile.")
  else
    st_info (py "Recording for " ++ str_of_int (record_seconds ui)
             ++ py " seconds " ++ [8212%N] ++ py " please speak now...");;
    wav_path <- record_local env (record_seconds ui) 44100;;
    match wav_path with
    | Some ((_ :: _) as wav_path) =>
        st_success (py "Recording finished, saved to temp file.");;
        st_audio wav_path;;
        st_markdown (py "Saved file: `" ++ wav_path ++ py "`");;
        set_last_record_path (Some wav_path);;
        st_info (py "Transcribing with OpenAI Whisper...");;
        text <- transcribe_with_openai_whisper env wav_path;;
        match text with
        | Some ((_ :: _) as text) =>
            st_chat_message user (py "**(Voice)** " ++ text);;
            let user_input := text in
            messages_append {| role := user; content := user_input |};;
            reply_block env ui
        | _ => st_warning (py "Could not transcribe the recording. Try again.")
        end
    | _ => ret tt
    end.

(** [if st.button("Clear last recording"):] (lines 191-198) *)
Definition clear_last_recording (env : Env) : M unit :=
  s <- get_session;;
  match last_record_path s with
  | Some ((_ :: _) as path) =>
      try_except (os_remove env path) (fun _ => ret tt)
  | _ => ret tt
  end;;
  set_last_record_path None;;
  st_info (py "Cleared last recording (if any).").

(** [if text_input:] (lines 203-217) *)
Definition text_chat (env : Env) (ui : Widgets) : M unit :=
  match text_input ui with
  | Some ((_ :: _) as text_input) =>
      let user_text := strip text_input in
      messages_append {| role := user; content := user_text |};;
      st_chat_message user user_text;;
      reply_block env ui
  | _ => ret tt
  end.

(** [if st.button("Clear Chat"):] (lines 222-225) *)
Definition clear_chat : M unit :=
  s <- get_session;;
  first <- match messages s with
           | m0 :: _ => ret m0
           | [] => raise (py "list index out of range")
           end;;
  set_messages [first];;
  set_last_record_path None;;
  st_experimental_rerun.

(** One run of the script.  Static decoration of the page (title, sidebar
    notes, footer) holds no state and is not rendered into [shown]. *)
Definition script (env : Env) (ui : Widgets) : M unit :=
  match OPENAI_API_KEY env with
  | Some (_ :: _) => ret tt
  | _ =>
      st_error (warning_sign ++ py " Please add your OpenAI API key to a .env file (OPENAI_API_KEY=sk-...) and restart the app.");;
      st_stop
  end;;
  let model := selectbox model_options (model_choice ui) in
  show_history;;
  (if record_clicked ui then record_button env ui else ret tt);;
  (if clear_recording_clicked ui then clear_last_recording env else ret tt);;
  text_chat env ui;;
  (if clear_chat_clicked ui then clear_chat else ret tt).

(** The widgets of the run Streamlit starts after a rerun request: the
    settings stay, no control fires. *)
Definition idle (ui : Widgets) : Widgets :=
  {| model_choice := model_choice ui;
     tts_rate := tts_rate ui;
     record_seconds := record_seconds ui;
     auto_speak := auto_speak ui;
     record_clicked := false;
     clear_recording_clicked := false;
     text_input := None;
     clear_chat_clicked := false |}.

(** One user interaction: the run it triggers and, when that run asked
    for it, the run that follows. *)
Definition interaction (env : Env) (ui : Widgets) : M unit :=
  fun w =>
    match script env ui w with
    | Halt true w' => script env (idle ui) w'
    | o => o
    end.

(** The world an outcome leaves behind; the session state survives an
    exception or a halt. *)
Definition world_of {A} (o : Outcome A) : World :=
  match o with
  | Done _ w => w
  | Raised _ w => w
  | Halt _ w => w
  end.

(** A whole session: interactions one after the other from a new session. *)
Fixpoint run_from (w : World) (inputs : list (Env * Widgets)) : World :=
  match inputs with
  | [] => w
  | (env, ui) :: rest => run_from (world_of (interaction env ui w)) rest
  end.

Definition run_session (inputs : list (Env * Widgets)) : World :=
  run_from fresh_world inputs.

(** ** Pure views of the oracles *)

(** What [call_openai_chat] returns for a conversation: the stripped
    content of the first choice, [None] when the endpoint raised, sent no
    choice, or sent a first choice without content. *)
Definition chat_reply (env : Env) (msgs : list Turn) : option pystr :=
  match gpt env (chat_request msgs) with
  | inl (c :: _) => strip <$> message_content c
  | _ => None
  end.

(** The array [sd.rec] hands to [record_local]. *)
Definition recording (env : Env) (duration_seconds samplerate : Z)
  : list (list float32) :=
  map (fun i => map (mic env i) (seq 0 1))
      (seq 0 (Z.to_nat (duration_seconds * samplerate))).

(** What [record_local] returns: the path of the new file when nothing on
    the way raised, [None] otherwise. *)
Definition recorded_path (env : Env) (duration_seconds samplerate : Z)
  : option pystr :=
  if HAVE_SOUNDDEVICE env then
    match rec_fault env, tmp_fault env, write_fault env with
    | None, None, None =>
        if duration_seconds * samplerate <? 0 then None
        else Some (tmp_name env ++ py ".wav")
    | _, _, _ => None
    end
  else None.

(** What [transcribe_with_openai_whisper] returns for the content of the
    path it is given. *)
Definition transcript (env : Env) (f : option File) : option pystr :=
  match f with
  | Some f =>
      match whisper env f with
      | inl text => Some (strip text)
      | inr _ => None
      end
  | None => None
  end.

(** What the Record handler gets back as [text]: the transcript of the
    clip it has just recorded, if there is one. *)
Definition heard (env : Env) (ui : Widgets) : option pystr :=
  match recorded_path env (record_seconds ui) 44100 with
  | Some (_ :: _) =>
      transcript env (Some (Wav 44100 (recording env (record_seconds ui) 44100)))
  | _ => None
  end.

(** The text the reply block stores for a conversation. *)
Definition reply_text (env : Env) (msgs : list Turn) : pystr :=
  default placeholder (chat_reply env msgs).

(** The conversation after a handler that has the user's text: the user
    turn, then the assistant turn answering it. *)
Definition exchange (env : Env) (msgs : list Turn) (text : pystr) : list Turn :=
  let asked := append {| role := user; content := text |} msgs in
  append {| role := assistant; content := reply_text env asked |} asked.

(** ** The shape of a conversation *)

Definition is_system (t : Turn) : bool :=
  match role t with system => true | _ => false end.
Definition is_user (t : Turn) : bool :=
  match role t with user => true | _ => false end.
Definition is_assistant (t : Turn) : bool :=
  match role t with assistant => true | _ => false end.

(** Index 0 holds a system turn. *)
Definition starts_with_system (ms : list Turn) : bool :=
  match ms with
  | t :: _ => is_system t
  | [] => false
  end.

(** User turns each followed by one assistant turn, and nothing else. *)
Fixpoint exchanges (ms : list Turn) : bool :=
  match ms with
  | [] => true
  | u :: a :: rest => is_user u && is_assistant a && exchanges rest
  | _ => false
  end.

(** One system turn, then user/assistant pairs. *)
Definition well_shaped (ms : list Turn) : bool :=
  match ms with
  | t :: rest => is_system t && exchanges rest
  | [] => false
  end.

(** ** The two ways to say something *)

Inductive Path := Voice | Text.

Definition handler (p : Path) : Env -> Widgets -> M unit :=
  match p with
  | Voice => record_button
  | Text => text_chat
  end.

(** The [content] of the user turn the handler stores, if it gets that
    far: the non-empty transcript on the voice path, the stripped input of
    a non-empty submission on the text path. *)
Definition user_text (p : Path) (env : Env) (ui : Widgets) : option pystr :=
  match p with
  | Voice =>
      match heard env ui with
      | Some (c :: t) => Some (c :: t)
      | _ => None
      end
  | Text =>
      match text_input ui with
      | Some (c :: t) => Some (strip (c :: t))
      | _ => None
      end
  end.

(** What a computation returned, when it ended normally. *)
Definition value_of {A} (o : Outcome A) : option A :=
  match o with
  | Done a _ => Some a
  | _ => None
  end.

(** ** Sample sessions *)

Definition demo_env : Env :=
  {| HAVE_SOUNDDEVICE := true;
     HAVE_TTS := true;
     OPENAI_API_KEY := Some (py "sk-demo");
     rec_fault := None;
     mic := fun _ _ => 0;
     tmp_fault := None;
     tmp_name := py "/tmp/tmpab12";
     write_fault := None;
     remove_fault := None;
     whisper := fun _ => inl (py " what time is it  ");
     gpt := fun _ => inl [{| message_content := Some (py "Hi there! ") |}];
     tts_fault := None;
     tts_rate_fault := false |}.

(** The same machine with the chat endpoint unreachable. *)
Definition offline_env : Env :=
  {| HAVE_SOUNDDEVICE := true;
     HAVE_TTS := true;
     OPENAI_API_KEY := Some (py "sk-demo");
     rec_fault := None;
     mic := fun _ _ => 0;
     tmp_fault := None;
     tmp_name := py "/tmp/tmpab12";
     write_fault := None;
     remove_fault := None;
     whisper := fun _ => inl (py " what time is it  ");
     gpt := fun _ => inr (py "Connection error.");
     tts_fault := None;
     tts_rate_fault := false |}.

(** The same machine when the transcript comes back blank. *)
Definition silent_env : Env :=
  {| HAVE_SOUNDDEVICE := true;
     HAVE_TTS := true;
     OPENAI_API_KEY := Some (py "sk-demo");
     rec_fault := None;
     mic := fun _ _ => 0;
     tmp_fault := None;
     tmp_name := py "/tmp/tmpab12";
     write_fault := None;
     remove_fault := None;
     whisper := fun _ => inl (py "  ");
     gpt := fun _ => inl [{| message_content := Some (py "Hi there! ") |}];
     tts_fault := None;
     tts_rate_fault := false |}.


Definition broken_mic_env : Env :=
  {| HAVE_SOUNDDEVICE := true;
     HAVE_TTS := false;
     OPENAI_API_KEY := Some (py "sk-demo");
     rec_fault := Some (py "Error querying device -1");
     mic := fun _ _ => 0;
     tmp_fault := None;
     tmp_name := py "/tmp/tmpab12";
     write_fault := None;
     remove_fault := None;
     whisper := fun _ => inl [];
     gpt := fun _ => inr (py "Connection error.");
     tts_fault := None;
     tts_rate_fault := false |}.

Definition settings : Widgets :=
  {| model_choice := 0;
     tts_rate := 160;
     record_seconds := 1;
     auto_speak := true;
     record_clicked := false;
     clear_recording_clicked := false;
     text_input := None;
     clear_chat_clicked := false |}.

Definition typing (text : pystr) : Widgets :=
  {| model_choice := 0;
     tts_rate := 160;
     record_seconds := 1;
     auto_speak := true;
     record_clicked := false;
     clear_recording_clicked := false;
     text_input := Some text;
     clear_chat_clicked := false |}.

Definition record_click : Widgets :=
  {| model_choice := 0;
     tts_rate := 160;
     record_seconds := 1;
     auto_speak := true;
     record_clicked := true;
     clear_recording_clicked := false;
     text_input := None;
     clear_chat_clicked := false |}.

(** A session that holds an earlier recording. *)
Definition old_clip : pystr := py "/tmp/tmpzz99.wav".

Definition recorded_world : World :=
  {| session := {| messages := [system_prompt];
                   last_record_path := Some old_clip |};
     files := {[ old_clip := Wav 44100 [[0]; [0]] ]};
     shown := [] |}.

(** A computation keeps a property of the world: from a world that has
    it, it does not end in an uncaught exception and leaves a world that
    has it. *)
Definition keeps (P : World -> Prop) {A} (m : M A) : Prop :=
  forall w, P w ->
    match m w with
    | Raised _ _ => False
    | o => P (world_of o)
    end.

Definition shaped (w : World) : Prop :=
  well_shaped (messages (session w)) = true.

(** ** What a run leaves on the page and on the disk *)

(** The world with more rendered on it. *)
Definition show_all (evs : list Event) (w : World) : World :=
  {| session := session w; files := files w; shown := shown w ++ evs |}.

(** The exception [call_openai_chat] catches, if any: the one the
    endpoint raised, the [IndexError] of [choices[0]] on an empty list, or
    the [AttributeError] of [None.strip()]. *)
Definition chat_failure (env : Env) (msgs : list Turn) : option pystr :=
  match gpt env (chat_request msgs) with
  | inr e => Some e
  | inl [] => Some (py "list index out of range")
  | inl (c :: _) =>
      match message_content c with
      | Some _ => None
      | None => Some (py "'NoneType' object has no attribute 'strip'")
      end
  end.

(** What [call_openai_chat] requests and renders. *)
Definition chat_events (env : Env) (msgs : list Turn) : list Event :=
  Chat_create (chat_request msgs)
  :: match chat_failure env msgs with
     | Some e => [St_error (py "OpenAI call failed: " ++ e)]
     | None => []
     end.

(** Whether [speak_text_local] returns [True]. *)
Definition spoke (env : Env) : bool :=
  HAVE_TTS env && match tts_fault env with Some _ => false | None => true end.

(** What [speak_text_local] plays or renders. *)
Definition speak_events (env : Env) (text : pystr) (rate : Z) : list Event :=
  if HAVE_TTS env then
    match tts_fault env with
    | Some e => [St_warning (py "TTS error: " ++ e)]
    | None => [Tts_say text (if tts_rate_fault env then None else Some rate)]
    end
  else [].

(** What the reply block requests, renders and plays for a conversation. *)
Definition reply_events (env : Env) (ui : Widgets) (msgs : list Turn)
  : list Event :=
  chat_events env msgs
  ++ St_chat_message assistant (reply_text env msgs)
  :: (if auto_speak ui && HAVE_TTS env
      then speak_events env (reply_text env msgs) (tts_rate ui)
      else []).

(** What the history loop renders for a conversation. *)
Definition history_events (ms : list Turn) : list Event :=
  map (fun msg => St_chat_message (role msg) (content msg)) (drop 1 ms).

(** The files [record_local] leaves behind. *)
Definition files_after_recording (env : Env) (duration_seconds samplerate : Z)
    (fs : gmap pystr File) : gmap pystr File :=
  let path := tmp_name env ++ py ".wav" in
  if HAVE_SOUNDDEVICE env then
    match rec_fault env with
    | Some _ => fs
    | None =>
        if duration_seconds * samplerate <? 0 then fs
        else
          match tmp_fault env with
          | Some _ => fs
          | None =>
              match write_fault env with
              | Some _ => <[path := EmptyFile]> fs
              | None =>
                  <[path := Wav samplerate
                                (recording env duration_seconds samplerate)]>
                    (<[path := EmptyFile]> fs)
              end
          end
    end
  else fs.

(** A text without whitespace at either end. *)
Definition trimmed (s : pystr) : bool :=
  match s with
  | [] => true
  | c :: r => negb (isspace c) && negb (isspace (List.last r c))
  end.

(** The API key passes the startup check of line 43. *)
Definition has_key (env : Env) : bool :=
  match OPENAI_API_KEY env with
  | Some (_ :: _) => true
  | _ => false
  end.

(** The number of completion requests in a trace. *)
Definition chat_requests (evs : list Event) : nat :=
  length (List.filter
            (fun ev => match ev with Chat_create _ => true | _ => false end)
            evs).

(** ** What an interaction does to the session *)

(** The conversation after a handler on path [p]. *)
Definition said (p : Path) (env : Env) (ui : Widgets) (ms : list Turn)
  : list Turn :=
  match user_text p env ui with
  | Some text => exchange env ms text
  | None => ms
  end.

(** The conversation after one run with the key set: Record first, then
    the text box, then Clear Chat. *)
Definition conversation_after (env : Env) (ui : Widgets) (ms : list Turn)
  : list Turn :=
  let m1 := if record_clicked ui then said Voice env ui ms else ms in
  let m2 := said Text env ui m1 in
  if clear_chat_clicked ui then take 1 m2 else m2.

(** The last-recording pointer after one run with the key set. *)
Definition pointer_after (env : Env) (ui : Widgets) (old : option pystr)
  : option pystr :=
  if clear_chat_clicked ui then None
  else if clear_recording_clicked ui then None
  else if record_clicked ui then
         match recorded_path env (record_seconds ui) 44100 with
         | Some path => Some path
         | None => old
         end
       else old.

(** A machine whose disk is full when the clip is written. *)
Definition full_disk_env : Env :=
  {| HAVE_SOUNDDEVICE := true;
     HAVE_TTS := true;
     OPENAI_API_KEY := Some (py "sk-demo");
     rec_fault := None;
     mic := fun _ _ => 0;
     tmp_fault := None;
     tmp_name := py "/tmp/tmpab12";
     write_fault := Some (py "Error opening file: System error.");
     remove_fault := None;
     whisper := fun _ => inl (py " what time is it  ");
     gpt := fun _ => inl [{| message_content := Some (py "Hi there! ") |}];
     tts_fault := None;
     tts_rate_fault := false |}.

(** A machine whose endpoint answers with blanks only. *)
Definition blank_env : Env :=
  {| HAVE_SOUNDDEVICE := true;
     HAVE_TTS := true;
     OPENAI_API_KEY := Some (py "sk-demo");
     rec_fault := None;
     mic := fun _ _ => 0;
     tmp_fault := None;
     tmp_name := py "/tmp/tmpab12";
     write_fault := None;
     remove_fault := None;
     whisper := fun _ => inl (py " what time is it  ");
     gpt := fun _ => inl [{| message_content := Some (py "  ") |}];
     tts_fault := None;
     tts_rate_fault := false |}.

(** A machine started without the API key. *)
Definition keyless_env : Env :=
  {| HAVE_SOUNDDEVICE := true;
     HAVE_TTS := true;
     OPENAI_API_KEY := None;
     rec_fault := None;
     mic := fun _ _ => 0;
     tmp_fault := None;
     tmp_name := py "/tmp/tmpab12";
     write_fault := None;
     remove_fault := None;
     whisper := fun _ => inl (py " what time is it  ");
     gpt := fun _ => inl [{| message_content := Some (py "Hi there! ") |}];
     tts_fault := None;
     tts_rate_fault := false |}.

(** Every control fired in the same run. *)
Definition all_clicked : Widgets :=
  {| model_choice := 0;
     tts_rate := 160;
     record_seconds := 1;
     auto_speak := true;
     record_clicked := true;
     clear_recording_clicked := true;
     text_input := Some (py "Hello");
     clear_chat_clicked := true |}.

(** A conversation under way, with a recording current. *)
Definition chatting_world : World :=
  {| session :=
       {| messages :=
            [system_prompt;
             {| role := user; content := py "Hello" |};
             {| role := assistant; content := py "Hi there!" |}];
          last_record_path := Some old_clip |};
     files := {[ old_clip := Wav 44100 [[0]; [0]] ]};
     shown := [] |}.


(** * Proofs *)

Ltac unfold_script :=
  cbv [bind ret raise try_except emit get_session put_session get_files
       put_files messages_append set_last_record_path set_messages
       st_error st_warning st_info st_success st_audio st_markdown
       st_chat_message st_stop st_experimental_rerun append];
  cbn [session files shown messages last_record_path world_of].

(** Closes a case of [record_local] in which no file was stored. *)
Ltac failed_recording :=
  eexists; (split; [reflexivity|]); cbn; repeat split;
  try set_solver; try discriminate.

(** ** Text *)

Lemma lstrip_all_space (s : pystr) :
  forallb isspace s = true -> lstrip s = [].
Proof.
  induction s as [|c r IH]; cbn; [reflexivity|].
  intros [Hc Hr]%andb_prop. rewrite Hc. auto.
Qed.

Lemma strip_all_space (s : pystr) :
  forallb isspace s = true -> strip s = [].
Proof. intros H. unfold strip. rewrite lstrip_all_space; auto. Qed.

Lemma py_app_nonempty (s t : pystr) c : s ++ c :: t <> [].
Proof. destruct s; discriminate. Qed.

(** ** Text without whitespace at its ends *)

Lemma last_cons_default (a d : N) (l : pystr) :
  List.last (a :: l) d = List.last l a.
Proof.
  revert a d. induction l as [|b l IH]; intros a d; [reflexivity|].
  change (List.last (a :: b :: l) d) with (List.last (b :: l) d).
  now rewrite !IH.
Qed.

Lemma lstrip_head s c r : lstrip s = c :: r -> isspace c = false.
Proof.
  induction s as [|a s IH]; cbn; [discriminate|].
  destruct (isspace a) eqn:Ha; [exact IH|].
  intros [= <- _]. exact Ha.
Qed.

Lemma rstrip_head l c r : rstrip l = c :: r -> exists r0, l = c :: r0.
Proof.
  destruct l as [|a l]; cbn; [discriminate|].
  destruct (rstrip l); [destruct (isspace a)|]; intros [= <- _]; eauto.
Qed.

Lemma rstrip_last l :
  match rstrip l with
  | [] => True
  | c :: r => isspace (List.last r c) = false
  end.
Proof.
  induction l as [|a l IH]; cbn; [exact I|].
  destruct (rstrip l) as [|b r].
  - destruct (isspace a) eqn:Ha; [exact I | exact Ha].
  - rewrite last_cons_default. exact IH.
Qed.

Lemma trimmed_strip s : trimmed (strip s) = true.
Proof.
  unfold strip, trimmed.
  pose proof (rstrip_last (lstrip s)) as Hlast.
  destruct (rstrip (lstrip s)) as [|c r] eqn:Hr; [reflexivity|].
  destruct (rstrip_head _ _ _ Hr) as [r0 Hl].
  apply lstrip_head in Hl. now rewrite Hl, Hlast.
Qed.

Lemma lstrip_nil_all_space s : lstrip s = [] -> forallb isspace s = true.
Proof.
  induction s as [|a s IH]; cbn; [reflexivity|].
  destruct (isspace a); [exact IH | discriminate].
Qed.

Lemma rstrip_nil_all_space l : rstrip l = [] -> forallb isspace l = true.
Proof.
  induction l as [|a l IH]; cbn; [reflexivity|].
  destruct (rstrip l); [|discriminate].
  destruct (isspace a); [intros _; now apply IH | discriminate].
Qed.

Lemma strip_nil_all_space s : strip s = [] -> forallb isspace s = true.
Proof.
  unfold strip. intros H. apply lstrip_nil_all_space.
  apply rstrip_nil_all_space in H.
  destruct (lstrip s) as [|c r] eqn:Hl; [reflexivity|].
  apply lstrip_head in Hl. cbn in H. now rewrite Hl in H.
Qed.

Lemma trimmed_placeholder : trimmed placeholder = true.
Proof. vm_compute. reflexivity. Qed.

Lemma trimmed_reply_text env msgs : trimmed (reply_text env msgs) = true.
Proof.
  unfold reply_text, chat_reply.
  destruct (gpt env (chat_request msgs)) as [[|[[t|]] rest]|e]; cbn;
    auto using trimmed_placeholder, trimmed_strip.
Qed.

Lemma trimmed_user_text p env ui text :
  user_text p env ui = Some text -> trimmed text = true.
Proof.
  destruct p; cbn [user_text].
  - unfold heard.
    destruct (recorded_path env (record_seconds ui) 44100) as [[|c0 p0]|];
      try discriminate.
    unfold transcript. destruct (whisper env _) as [t|e]; [|discriminate].
    pose proof (trimmed_strip t) as Ht.
    destruct (strip t) as [|c r]; [discriminate|].
    now intros [= <-].
  - destruct (text_input ui) as [[|c t]|]; try discriminate.
    intros [= <-]. apply trimmed_strip.
Qed.

(** Stripping only removes whitespace, and only at the two ends. *)
Lemma lstrip_decompose s :
  exists pre, s = pre ++ lstrip s /\ forallb isspace pre = true.
Proof.
  induction s as [|c r (pre & Hr & Hpre)]; [now exists []|].
  cbn [lstrip]. destruct (isspace c) eqn:Hc.
  - exists (c :: pre). cbn. rewrite Hc, Hpre. split; [now f_equal|reflexivity].
  - now exists [].
Qed.

Lemma rstrip_decompose l :
  exists post, l = rstrip l ++ post /\ forallb isspace post = true.
Proof.
  induction l as [|c r (post & Hr & Hpost)]; [now exists []|].
  cbn [rstrip]. destruct (rstrip r) as [|c' r'] eqn:Hrs.
  - cbn [app] in Hr. subst post. destruct (isspace c) eqn:Hc.
    + exists (c :: r). cbn. now rewrite Hc, Hpost.
    + now exists r.
  - exists post. split; [|exact Hpost]. cbn [app]. now f_equal.
Qed.

Lemma strip_decompose s :
  exists pre post,
    s = pre ++ strip s ++ post
    /\ forallb isspace pre = true /\ forallb isspace post = true.
Proof.
  unfold strip.
  destruct (lstrip_decompose s) as (pre & Hs & Hpre).
  destruct (rstrip_decompose (lstrip s)) as (post & Hl & Hpost).
  exists pre, post. split; [|now split].
  now rewrite <- Hl.
Qed.

(** ** Composition *)

Lemma bind_done {A B} (m : M A) (k : A -> M B) w a w' :
  m w = Done a w' -> bind m k w = k a w'.
Proof. intros H. unfold bind. now rewrite H. Qed.

(** ** The helpers never raise and never touch the session *)

Lemma call_openai_chat_done env msgs w :
  exists w', call_openai_chat env msgs w = Done (chat_reply env msgs) w'
    /\ session w' = session w /\ files w' = files w
    /\ exists extra,
         shown w' = shown w ++ Chat_create (chat_request msgs) :: extra.
Proof.
  unfold call_openai_chat, chat_completions_create, chat_reply.
  unfold_script.
  destruct (gpt env (chat_request msgs)) as [[|[[t|]] rest]|e]; unfold_script;
    eexists; (split; [reflexivity|]); cbn; repeat split; eauto.
  all: rewrite <- ?app_assoc; eexists; reflexivity.
Qed.

Lemma speak_text_local_done env text rate w :
  exists b w', speak_text_local env text rate w = Done b w'
    /\ session w' = session w /\ files w' = files w
    /\ exists extra, shown w' = shown w ++ extra.
Proof.
  unfold speak_text_local, pyttsx3_say.
  destruct (HAVE_TTS env); cbn [negb]; unfold_script.
  - destruct (tts_fault env); unfold_script;
      do 2 eexists; (split; [reflexivity|]); cbn; repeat split;
      rewrite <- ?app_assoc; eexists; reflexivity.
  - do 2 eexists; (split; [reflexivity|]); repeat split.
    exists []. now rewrite app_nil_r.
Qed.

Lemma reply_block_done env ui w :
  exists w', reply_block env ui w = Done tt w'
    /\ messages (session w')
       = messages (session w)
         ++ [{| role := assistant;
                content := reply_text env (messages (session w)) |}]
    /\ last_record_path (session w') = last_record_path (session w)
    /\ files w' = files w
    /\ exists extra,
         shown w'
         = shown w ++ Chat_create (chat_request (messages (session w))) :: extra.
Proof.
  unfold reply_block, reply_text.
  destruct (call_openai_chat_done env (messages (session w)) w)
    as (w1 & Hcall & Hs1 & Hf1 & ex1 & Hsh1).
  unfold bind at 1. unfold get_session at 1.
  rewrite (bind_done _ _ _ _ _ Hcall).
  set (reply := match chat_reply env (messages (session w)) with
                | Some r => r | None => placeholder end).
  assert (Hreply : default placeholder (chat_reply env (messages (session w)))
                   = reply)
    by (subst reply; destruct (chat_reply env (messages (session w))); reflexivity).
  rewrite Hreply.
  unfold_script. rewrite Hs1, Hf1, Hsh1.
  destruct (auto_speak ui && HAVE_TTS env).
  - match goal with
    | |- context [speak_text_local env reply (tts_rate ui) ?w0] =>
        destruct (speak_text_local_done env reply (tts_rate ui) w0)
          as (b & w2 & Hsp & Hs2 & Hf2 & ex2 & Hsh2); rewrite Hsp
    end.
    exists w2. split; [reflexivity|].
    rewrite Hs2, Hf2, Hsh2. cbn. repeat split.
    rewrite <- !app_assoc. eexists. reflexivity.
  - eexists. split; [reflexivity|]. cbn. repeat split.
    rewrite <- !app_assoc. eexists. reflexivity.
Qed.

Lemma record_local_spec env d sr w :
  exists w', record_local env d sr w = Done (recorded_path env d sr) w'
    /\ session w' = session w
    /\ dom (files w) ⊆ dom (files w')
    /\ (forall p, recorded_path env d sr = Some p ->
          files w' !! p = Some (Wav sr (recording env d sr))
          /\ forall q, q <> p -> files w' !! q = files w !! q).
Proof.
  unfold record_local, recorded_path, sd_rec, NamedTemporaryFile, sf_write,
    recording.
  destruct (HAVE_SOUNDDEVICE env); cbn [negb]; unfold_script;
    [|failed_recording].
  destruct (rec_fault env); unfold_script; [failed_recording|].
  destruct (d * sr <? 0); unfold_script.
  { destruct (tmp_fault env), (write_fault env); failed_recording. }
  destruct (tmp_fault env); unfold_script; [failed_recording|].
  destruct (write_fault env); unfold_script.
  { eexists; (split; [reflexivity|]); cbn; repeat split; try discriminate.
    rewrite dom_insert_L. set_solver. }
  eexists; (split; [reflexivity|]); cbn; repeat split.
  - rewrite !dom_insert_L. set_solver.
  - inversion H; subst. apply lookup_insert_eq.
  - intros q Hq. inversion H; subst. now rewrite !lookup_insert_ne.
Qed.

Lemma transcribe_spec env path w :
  exists w', transcribe_with_openai_whisper env path w
             = Done (transcript env (files w !! path)) w'
    /\ session w' = session w /\ files w' = files w.
Proof.
  unfold transcribe_with_openai_whisper, open_rb, transcriptions_create,
    transcript.
  unfold_script.
  destruct (files w !! path) as [f|]; unfold_script.
  - destruct (whisper env f); unfold_script;
      eexists; (split; [reflexivity|]); cbn; auto.
  - eexists; (split; [reflexivity|]); cbn; auto.
Qed.

Lemma recorded_path_nonempty env d sr : recorded_path env d sr <> Some [].
Proof.
  unfold recorded_path.
  destruct (HAVE_SOUNDDEVICE env), (rec_fault env), (tmp_fault env),
    (write_fault env), (d * sr <? 0); try discriminate.
  intros [=H]. now apply py_app_nonempty in H.
Qed.

(** ** What each handler does to the session and to the files *)

Lemma record_button_spec env ui w :
  exists w', record_button env ui w = Done tt w'
    /\ messages (session w')
       = match heard env ui with
         | Some (c :: t) => exchange env (messages (session w)) (c :: t)
         | _ => messages (session w)
         end
    /\ last_record_path (session w')
       = match recorded_path env (record_seconds ui) 44100 with
         | Some p => Some p
         | None => last_record_path (session w)
         end
    /\ dom (files w) ⊆ dom (files w').
Proof.
  unfold record_button, heard.
  destruct (HAVE_SOUNDDEVICE env) eqn:Hsd; cbn [negb].
  2: { unfold recorded_path. rewrite Hsd. unfold_script.
       eexists. split; [reflexivity|]. cbn. auto. }
  unfold bind at 1. unfold st_info at 1, emit at 1.
  match goal with
  | |- context [bind (record_local env ?d ?sr) _ ?w0] =>
      destruct (record_local_spec env d sr w0) as (w1 & Hrec & Hs1 & Hd1 & Hf1);
      rewrite (bind_done _ _ _ _ _ Hrec)
  end.
  cbn [session files] in Hs1, Hd1.
  pose proof (recorded_path_nonempty env (record_seconds ui) 44100) as Hne.
  destruct (recorded_path env (record_seconds ui) 44100) as [[|c p]|];
    [congruence| |].
  2: { unfold_script. exists w1. rewrite Hs1. auto. }
  destruct (Hf1 _ eq_refl) as [Hfile _].
  unfold_script.
  match goal with
  | |- context [transcribe_with_openai_whisper env ?p ?w0] =>
      destruct (transcribe_spec env p w0) as (w2 & Htr & Hs2 & Hf2);
      rewrite Htr
  end.
  cbn [session files] in Hs2, Hf2 |- *. rewrite Hfile. clear Htr.
  assert (Hd2 : dom (files w) ⊆ dom (files w2)) by now rewrite Hf2.
  destruct (transcript env _) as [[|c' t']|].
  1, 3: eexists; (split; [reflexivity|]); cbn; rewrite Hs2, Hs1; auto.
  match goal with
  | |- context [reply_block env ui ?w0] =>
      destruct (reply_block_done env ui w0) as (w3 & Hrb & Hm3 & Hl3 & Hf3 & _)
  end.
  cbn [session files messages last_record_path] in Hm3, Hl3, Hf3.
  exists w3. split; [exact Hrb|].
  rewrite Hm3, Hl3, Hf3, Hs2, Hs1. auto.
Qed.

Lemma text_chat_spec env ui w :
  exists w', text_chat env ui w = Done tt w'
    /\ messages (session w')
       = match text_input ui with
         | Some (c :: t) => exchange env (messages (session w)) (strip (c :: t))
         | _ => messages (session w)
         end
    /\ last_record_path (session w') = last_record_path (session w)
    /\ files w' = files w
    /\ match text_input ui with
       | Some (c :: t) =>
           In (Chat_create
                 (chat_request
                    (append {| role := user; content := strip (c :: t) |}
                            (messages (session w)))))
              (shown w')
       | _ => w' = w
       end.
Proof.
  unfold text_chat.
  destruct (text_input ui) as [[|c t]|].
  1, 3: exists w; auto.
  unfold_script.
  match goal with
  | |- context [reply_block env ui ?w0] =>
      destruct (reply_block_done env ui w0)
        as (w1 & Hrb & Hm & Hl & Hf & extra & Hsh)
  end.
  cbn [session files messages last_record_path shown] in Hm, Hl, Hf, Hsh.
  exists w1. split; [exact Hrb|]. rewrite Hm, Hl, Hf, Hsh.
  repeat split. apply in_or_app. right. now left.
Qed.

Lemma clear_last_recording_spec env w :
  exists w', clear_last_recording env w = Done tt w'
    /\ messages (session w') = messages (session w)
    /\ last_record_path (session w') = None
    /\ files w'
       = match last_record_path (session w), remove_fault env with
         | Some (c :: p), None => delete (c :: p) (files w)
         | _, _ => files w
         end.
Proof.
  unfold clear_last_recording, os_remove. unfold_script.
  destruct (last_record_path (session w)) as [[|c p]|]; unfold_script.
  1, 3: destruct (remove_fault env);
    eexists; (split; [reflexivity|]); cbn; auto.
  destruct (files w !! (c :: p)) eqn:Hfile; unfold_script.
  - destruct (remove_fault env); unfold_script;
      eexists; (split; [reflexivity|]); cbn; auto.
  - eexists; (split; [reflexivity|]); cbn. repeat split.
    destruct (remove_fault env); [reflexivity|].
    symmetry. now apply delete_id.
Qed.

Lemma clear_chat_spec w m0 rest :
  messages (session w) = m0 :: rest ->
  clear_chat w
  = Halt true {| session := {| messages := [m0]; last_record_path := None |};
                 files := files w; shown := shown w |}.
Proof. intros H. unfold clear_chat. unfold_script. now rewrite H. Qed.

Lemma show_turns_done ms w :
  exists w', show_turns ms w = Done tt w'
    /\ session w' = session w /\ files w' = files w.
Proof.
  revert w. induction ms as [|msg rest IH]; intros w; cbn [show_turns].
  - exists w. auto.
  - unfold_script.
    match goal with
    | |- context [show_turns rest ?w0] =>
        destruct (IH w0) as (w1 & Hrun & Hs & Hf)
    end.
    exists w1. cbn [session files] in Hs, Hf. auto.
Qed.

Lemma show_history_done w :
  exists w', show_history w = Done tt w'
    /\ session w' = session w /\ files w' = files w.
Proof.
  unfold show_history, bind, get_session. apply show_turns_done.
Qed.

(** ** The shape of the conversation is kept *)

Lemma exchanges_app (l1 l2 : list Turn) :
  exchanges l1 = true -> exchanges (l1 ++ l2) = exchanges l2.
Proof.
  remember (length l1) as n eqn:Hn. revert l1 Hn.
  induction n as [n IH] using lt_wf_ind.
  intros [|u [|a rest]] Hn H; cbn in *; try discriminate; [reflexivity|].
  apply andb_prop in H as [Hua Hrest]. rewrite Hua. cbn.
  apply (IH (length rest)); [lia | reflexivity | assumption].
Qed.

Lemma well_shaped_exchange env msgs text :
  well_shaped msgs = true -> well_shaped (exchange env msgs text) = true.
Proof.
  destruct msgs as [|s rest]; [discriminate|].
  unfold exchange, append. cbn.
  intros [Hs Hrest]%andb_prop. rewrite Hs. cbn.
  rewrite <- app_assoc. now rewrite exchanges_app.
Qed.

Lemma well_shaped_starts ms :
  well_shaped ms = true -> starts_with_system ms = true.
Proof.
  destruct ms as [|s rest]; [discriminate|].
  cbn. now intros [Hs _]%andb_prop.
Qed.

Lemma keeps_ret P {A} (a : A) : keeps P (ret a).
Proof. intros w Hw. exact Hw. Qed.

Lemma keeps_bind P {A B} (m : M A) (k : A -> M B) :
  keeps P m -> (forall a, keeps P (k a)) -> keeps P (bind m k).
Proof.
  intros Hm Hk w Hw. unfold bind. specialize (Hm w Hw).
  destruct (m w) as [a w1|e w1|again w1]; [|contradiction|exact Hm].
  now apply Hk.
Qed.

Lemma keeps_done P {A} (m : M A) :
  (forall w, P w -> exists a w', m w = Done a w' /\ P w') -> keeps P m.
Proof.
  intros H w Hw. destruct (H w Hw) as (a & w' & -> & Hw'). exact Hw'.
Qed.

Lemma shaped_session w w' :
  messages (session w') = messages (session w) -> shaped w -> shaped w'.
Proof. unfold shaped. now intros ->. Qed.

Lemma emit_keeps_shape ev : keeps shaped (emit ev).
Proof. intros w Hw. exact Hw. Qed.

Lemma show_history_keeps_shape : keeps shaped show_history.
Proof.
  apply keeps_done. intros w Hw.
  destruct (show_history_done w) as (w' & Hrun & Hs & _).
  exists tt, w'. split; [exact Hrun|].
  apply (shaped_session w); [now rewrite Hs | exact Hw].
Qed.

Lemma record_button_keeps_shape env ui : keeps shaped (record_button env ui).
Proof.
  apply keeps_done. intros w Hw.
  destruct (record_button_spec env ui w) as (w' & Hrun & Hm & _).
  exists tt, w'. split; [exact Hrun|].
  unfold shaped in *. rewrite Hm.
  destruct (heard env ui) as [[|c t]|]; auto using well_shaped_exchange.
Qed.

Lemma text_chat_keeps_shape env ui : keeps shaped (text_chat env ui).
Proof.
  apply keeps_done. intros w Hw.
  destruct (text_chat_spec env ui w) as (w' & Hrun & Hm & _).
  exists tt, w'. split; [exact Hrun|].
  unfold shaped in *. rewrite Hm.
  destruct (text_input ui) as [[|c t]|]; auto using well_shaped_exchange.
Qed.

Lemma clear_last_recording_keeps_shape env :
  keeps shaped (clear_last_recording env).
Proof.
  apply keeps_done. intros w Hw.
  destruct (clear_last_recording_spec env w) as (w' & Hrun & Hm & _).
  exists tt, w'. split; [exact Hrun|].
  now apply (shaped_session w).
Qed.

Lemma clear_chat_keeps_shape : keeps shaped clear_chat.
Proof.
  intros w Hw. unfold shaped in Hw.
  destruct (messages (session w)) as [|m0 rest] eqn:Hms; [discriminate|].
  rewrite (clear_chat_spec w m0 rest Hms). unfold shaped. cbn.
  cbn in Hw. apply andb_prop in Hw as [-> _]. reflexivity.
Qed.

Lemma script_keeps_shape env ui : keeps shaped (script env ui).
Proof.
  unfold script.
  apply keeps_bind.
  { destruct (OPENAI_API_KEY env) as [[|c k]|]; try apply keeps_ret;
      intros w Hw; exact Hw. }
  intros _. apply keeps_bind; [apply show_history_keeps_shape|].
  intros _. apply keeps_bind.
  { destruct (record_clicked ui);
      [apply record_button_keeps_shape | apply keeps_ret]. }
  intros _. apply keeps_bind.
  { destruct (clear_recording_clicked ui);
      [apply clear_last_recording_keeps_shape | apply keeps_ret]. }
  intros _. apply keeps_bind; [apply text_chat_keeps_shape|].
  intros _. destruct (clear_chat_clicked ui);
    [apply clear_chat_keeps_shape | apply keeps_ret].
Qed.

Lemma interaction_keeps_shape env ui : keeps shaped (interaction env ui).
Proof.
  intros w Hw. unfold interaction.
  pose proof (script_keeps_shape env ui w Hw) as H1.
  destruct (script env ui w) as [a w1|e w1|[|] w1]; try exact H1.
  apply (script_keeps_shape env (idle ui) w1 H1).
Qed.

Lemma run_from_shaped inputs w : shaped w -> shaped (run_from w inputs).
Proof.
  revert w. induction inputs as [|[env ui] rest IH]; intros w Hw; [exact Hw|].
  cbn [run_from]. apply IH.
  pose proof (interaction_keeps_shape env ui w Hw) as H.
  destruct (interaction env ui w); [exact H|contradiction|exact H].
Qed.

Lemma run_session_shaped inputs : shaped (run_session inputs).
Proof. apply run_from_shaped. reflexivity. Qed.

Lemma handler_spec p env ui w :
  exists w', handler p env ui w = Done tt w'
    /\ messages (session w')
       = match user_text p env ui with
         | Some text => exchange env (messages (session w)) text
         | None => messages (session w)
         end.
Proof.
  destruct p; cbn [handler user_text].
  - destruct (record_button_spec env ui w) as (w' & Hrun & Hm & _).
    exists w'. split; [exact Hrun|]. rewrite Hm.
    now destruct (heard env ui) as [[|c t]|].
  - destruct (text_chat_spec env ui w) as (w' & Hrun & Hm & _).
    exists w'. split; [exact Hrun|]. rewrite Hm.
    now destruct (text_input ui) as [[|c t]|].
Qed.

(** * The claims *)

(** C1: on the voice path and on the text path alike, when the handler has
    the user's text and the completion call gives no reply, the handler
    ends normally (no exception leaves it) and the conversation is the
    old one followed by the user turn and exactly one assistant turn
    whose content is the placeholder. *)
Theorem completion_failure_appends_placeholder p env ui w text :
  user_text p env ui = Some text ->
  chat_reply env (append {| role := user; content := text |}
                         (messages (session w))) = None ->
  exists w', handler p env ui w = Done tt w'
    /\ messages (session w')
       = messages (session w)
         ++ [{| role := user; content := text |};
             {| role := assistant; content := placeholder |}].
Proof.
  intros Htext Hfail.
  destruct (handler_spec p env ui w) as (w' & Hrun & Hm).
  exists w'. split; [exact Hrun|].
  rewrite Hm, Htext. unfold exchange, reply_text. rewrite Hfail.
  unfold append. cbn [default]. now rewrite <- app_assoc.
Qed.

Lemma completion_failure_appends_placeholder_witness :
  (exists w',
     text_chat offline_env (typing (py "Hello")) fresh_world = Done tt w'
     /\ messages (session w')
        = [system_prompt; {| role := user; content := py "Hello" |};
           {| role := assistant; content := placeholder |}])
  /\ (exists w',
     record_button offline_env settings fresh_world = Done tt w'
     /\ messages (session w')
        = [system_prompt;
           {| role := user; content := py "what time is it" |};
           {| role := assistant; content := placeholder |}]).
Proof.
  split.
  - apply (completion_failure_appends_placeholder Text offline_env
             (typing (py "Hello")) fresh_world (py "Hello")); reflexivity.
  - apply (completion_failure_appends_placeholder Voice offline_env
             settings fresh_world (py "what time is it"));
      vm_compute; reflexivity.
Defined.

(** C2: when the transcription of the clip the Record handler has just
    stored fails ([None]) or comes back empty after stripping, the handler
    ends normally and the conversation is the one it started with: same
    length, same turns, no user turn added. *)
Theorem failed_transcription_keeps_conversation env ui w clip :
  clip = Wav 44100 (recording env (record_seconds ui) 44100) ->
  transcript env (Some clip) = None \/ transcript env (Some clip) = Some [] ->
  exists w', record_button env ui w = Done tt w'
    /\ messages (session w') = messages (session w)
    /\ length (messages (session w')) = length (messages (session w)).
Proof.
  intros -> Hfail.
  destruct (record_button_spec env ui w) as (w' & Hrun & Hm & _).
  exists w'. split; [exact Hrun|].
  assert (Hsame : messages (session w') = messages (session w)).
  { rewrite Hm. unfold heard.
    destruct (recorded_path env (record_seconds ui) 44100) as [[|c p]|];
      try reflexivity.
    destruct Hfail as [-> | ->]; reflexivity. }
  split; [exact Hsame | now rewrite Hsame].
Qed.

Lemma failed_transcription_keeps_conversation_witness :
  exists w', record_button silent_env settings recorded_world = Done tt w'
    /\ messages (session w') = [system_prompt]
    /\ length (messages (session w')) = 1%nat.
Proof.
  apply (failed_transcription_keeps_conversation silent_env settings
           recorded_world
           (Wav 44100 (recording silent_env (record_seconds settings) 44100)));
    [reflexivity | right; vm_compute; reflexivity].
Defined.

(** C3: from every session whose first turn is the system turn, Clear Chat
    leaves a conversation of length 1 whose only turn has role [system]
    (the turn that was at index 0), sets the last-recording pointer to
    [None], and asks for a rerun. *)
Theorem reset_leaves_system_turn w :
  starts_with_system (messages (session w)) = true ->
  exists t w', clear_chat w = Halt true w'
    /\ messages (session w') = [t]
    /\ length (messages (session w')) = 1%nat
    /\ role t = system
    /\ messages (session w) !! 0%nat = Some t
    /\ last_record_path (session w') = None.
Proof.
  intros Hsys.
  destruct (messages (session w)) as [|m0 rest] eqn:Hms; [discriminate|].
  exists m0. eexists. split; [apply (clear_chat_spec w m0 rest Hms)|].
  cbn. repeat split.
  cbn in Hsys. unfold is_system in Hsys. now destruct (role m0).
Qed.

Lemma reset_leaves_system_turn_witness :
  length (messages (session chatting_world)) = 3%nat
  /\ last_record_path (session chatting_world) = Some old_clip
  /\ exists t w', clear_chat chatting_world = Halt true w'
       /\ messages (session w') = [t]
       /\ length (messages (session w')) = 1%nat
       /\ role t = system
       /\ messages (session chatting_world) !! 0%nat = Some t
       /\ last_record_path (session w') = None.
Proof.
  split; [reflexivity|]. split; [reflexivity|].
  apply (reset_leaves_system_turn chatting_world). reflexivity.
Defined.

(** C4: in every session whose first turn is the system turn, appending
    any turn keeps every earlier turn at its index (so nothing is removed
    or reordered), makes the conversation exactly one longer, puts the new
    turn last, and leaves a system turn at index 0. *)
Theorem append_keeps_prior_turns (t : Turn) w :
  starts_with_system (messages (session w)) = true ->
  exists w', messages_append t w = Done tt w'
    /\ length (messages (session w')) = S (length (messages (session w)))
    /\ take (length (messages (session w))) (messages (session w'))
       = messages (session w)
    /\ (forall i x, messages (session w) !! i = Some x ->
                    messages (session w') !! i = Some x)
    /\ messages (session w') !! length (messages (session w)) = Some t
    /\ starts_with_system (messages (session w')) = true.
Proof.
  intros Hsys. eexists. split; [reflexivity|].
  cbn [session messages]. unfold append.
  repeat split.
  - rewrite length_app. cbn. lia.
  - now rewrite take_app_length.
  - intros i x Hi. now apply lookup_app_l_Some.
  - now rewrite list_lookup_middle.
  - now destruct (messages (session w)).
Qed.

Lemma append_keeps_prior_turns_witness :
  exists w',
    messages_append {| role := user; content := py "Hello" |} fresh_world
    = Done tt w'
    /\ length (messages (session w')) = 2%nat
    /\ take 1 (messages (session w')) = [system_prompt]
    /\ (forall i x, [system_prompt] !! i = Some x ->
                    messages (session w') !! i = Some x)
    /\ messages (session w') !! 1%nat
       = Some {| role := user; content := py "Hello" |}
    /\ starts_with_system (messages (session w')) = true.
Proof.
  apply (append_keeps_prior_turns {| role := user; content := py "Hello" |}
           fresh_world).
  reflexivity.
Defined.

Lemma frames_shape (f : nat -> list float32) (start n : nat) :
  (forall i, length (f i) = 1%nat) ->
  length (map f (seq start n)) = n
  /\ Forall (fun frame => length frame = 1%nat) (map f (seq start n))
  /\ length (concat (map f (seq start n))) = n.
Proof.
  intros Hf. revert start.
  induction n as [|n IH]; intros start; cbn [seq map length concat].
  - auto.
  - destruct (IH (S start)) as (Hlen & Hall & Hcat).
    rewrite length_app, Hf, Hlen, Hcat. auto.
Qed.

Lemma recording_shape env d sr :
  0 <= d * sr ->
  Z.of_nat (length (recording env d sr)) = d * sr
  /\ Forall (fun frame => length frame = 1%nat) (recording env d sr)
  /\ Z.of_nat (length (concat (recording env d sr))) = d * sr.
Proof.
  intros Hpos. unfold recording.
  destruct (frames_shape (fun i => map (mic env i) (seq 0 1)) 0
              (Z.to_nat (d * sr)) (fun _ => eq_refl))
    as (Hlen & Hall & Hcat).
  rewrite Hlen, Hcat. repeat split; [lia | exact Hall | lia].
Qed.

(** C5: for a duration between 1 and 20 seconds and a positive sample
    rate, [record_local] always returns; when it returns a path (the
    recording completed) the file at that path holds exactly
    [duration_seconds * samplerate] frames of one channel each, hence that
    many samples, at the requested rate; it returns no path only when the
    libraries are missing or one of its steps raised. *)
Theorem recording_has_requested_samples env d sr w :
  1 <= d <= 20 -> 0 < sr ->
  exists r w', record_local env d sr w = Done r w'
    /\ match r with
       | Some path =>
           exists data, files w' !! path = Some (Wav sr data)
             /\ Z.of_nat (length data) = d * sr
             /\ Forall (fun frame => length frame = 1%nat) data
             /\ Z.of_nat (length (concat data)) = d * sr
       | None =>
           HAVE_SOUNDDEVICE env = false \/ rec_fault env <> None
           \/ tmp_fault env <> None \/ write_fault env <> None
       end.
Proof.
  intros Hd Hsr.
  assert (Hpos : 0 <= d * sr) by nia.
  destruct (record_local_spec env d sr w) as (w' & Hrun & _ & _ & Hfile).
  exists (recorded_path env d sr), w'. split; [exact Hrun|].
  destruct (recorded_path env d sr) as [path|] eqn:Hpath.
  - destruct (Hfile path eq_refl) as [Hf _].
    exists (recording env d sr). split; [exact Hf|].
    now apply recording_shape.
  - unfold recorded_path in Hpath.
    destruct (HAVE_SOUNDDEVICE env); [|now left].
    destruct (rec_fault env); [right; left; discriminate|].
    destruct (tmp_fault env); [right; right; left; discriminate|].
    destruct (write_fault env); [right; right; right; discriminate|].
    destruct (d * sr <? 0) eqn:Hneg; [lia | discriminate].
Qed.

Lemma recording_has_requested_samples_witness :
  exists r w', record_local demo_env 2 8 fresh_world = Done r w'
    /\ match r with
       | Some path =>
           exists data, files w' !! path = Some (Wav 8 data)
             /\ Z.of_nat (length data) = 2 * 8
             /\ Forall (fun frame => length frame = 1%nat) data
             /\ Z.of_nat (length (concat data)) = 2 * 8
       | None =>
           HAVE_SOUNDDEVICE demo_env = false \/ rec_fault demo_env <> None
           \/ tmp_fault demo_env <> None \/ write_fault demo_env <> None
       end.
Proof.
  apply (recording_has_requested_samples demo_env 2 8 fresh_world); lia.
Defined.

Example demo_recording :
  value_of (record_local demo_env 2 8 fresh_world)
  = Some (Some (py "/tmp/tmpab12.wav")).
Proof. vm_compute. reflexivity. Qed.

(** C6, evaluated on a session that holds an earlier recording: Clear Chat
    drops the pointer and Record replaces it, and in both cases the file
    of the earlier recording is still there; only Clear last recording
    removes it. *)
Theorem reset_and_record_leave_old_clip :
  (last_record_path (session (world_of (clear_chat recorded_world))) = None
   /\ files (world_of (clear_chat recorded_world)) !! old_clip
      = Some (Wav 44100 [[0]; [0]]))
  /\ (last_record_path
        (session (world_of (record_button demo_env settings recorded_world)))
      = Some (py "/tmp/tmpab12.wav")
      /\ files (world_of (record_button demo_env settings recorded_world))
         !! old_clip
         = Some (Wav 44100 [[0]; [0]]))
  /\ (last_record_path
        (session (world_of (clear_last_recording demo_env recorded_world)))
      = None
      /\ files (world_of (clear_last_recording demo_env recorded_world))
         !! old_clip
         = None).
Proof. vm_compute. repeat split. Qed.

(** C7: whatever the session holds, the reply block asks for a completion
    of the whole conversation, in order and from the system turn at index
    0 on, at temperature 0.6 and for the model the sidebar offers; the
    call returns the content of the first choice trimmed: what it
    returns has no whitespace at either end and is that content with
    nothing but whitespace taken off before and after. *)
Theorem completion_request_is_whole_conversation env ui w :
  (model_choice ui < length model_options)%nat ->
  let msgs := messages (session w) in
  let req := chat_request msgs in
  (exists w' extra,
     reply_block env ui w = Done tt w'
     /\ shown w' = shown w ++ Chat_create req :: extra)
  /\ req_messages req = msgs
  /\ req_temperature req = 6 # 10
  /\ req_model req = selectbox model_options (model_choice ui)
  /\ (exists w1, call_openai_chat env msgs w = Done (chat_reply env msgs) w1)
  /\ (forall t rest,
        gpt env req = inl ({| message_content := Some t |} :: rest) ->
        chat_reply env msgs = Some (strip t))
  /\ (forall t rest,
        gpt env req = inl ({| message_content := Some t |} :: rest) ->
        exists r pre post,
          value_of (call_openai_chat env msgs w) = Some (Some r)
          /\ trimmed r = true
          /\ t = pre ++ r ++ post
          /\ forallb isspace pre = true
          /\ forallb isspace post = true).
Proof.
  intros Hchoice msgs req. repeat split.
  - destruct (reply_block_done env ui w)
      as (w' & Hrun & _ & _ & _ & extra & Hsh).
    now exists w', extra.
  - unfold model_options in *. cbn [length] in Hchoice.
    destruct (model_choice ui) as [|n]; [reflexivity | lia].
  - destruct (call_openai_chat_done env msgs w) as (w1 & Hrun & _).
    now exists w1.
  - intros t rest Hgpt. unfold chat_reply. fold req. now rewrite Hgpt.
  - intros t rest Hgpt.
    destruct (call_openai_chat_done env msgs w) as (w1 & Hrun & _).
    destruct (strip_decompose t) as (pre & post & Ht & Hpre & Hpost).
    exists (strip t), pre, post. rewrite Hrun. cbn [value_of].
    unfold chat_reply. fold req. rewrite Hgpt. cbn.
    split; [reflexivity|]. split; [apply trimmed_strip|]. now split.
Qed.

Lemma completion_request_is_whole_conversation_witness :
  let msgs := messages (session chatting_world) in
  let req := chat_request msgs in
  ((exists w' extra,
      reply_block demo_env settings chatting_world = Done tt w'
      /\ shown w' = shown chatting_world ++ Chat_create req :: extra)
   /\ req_messages req = msgs
   /\ req_temperature req = 6 # 10
   /\ req_model req = selectbox model_options (model_choice settings)
   /\ (exists w1, call_openai_chat demo_env msgs chatting_world
                  = Done (chat_reply demo_env msgs) w1)
   /\ (forall t rest,
         gpt demo_env req = inl ({| message_content := Some t |} :: rest) ->
         chat_reply demo_env msgs = Some (strip t))
   /\ (forall t rest,
         gpt demo_env req = inl ({| message_content := Some t |} :: rest) ->
         exists r pre post,
           value_of (call_openai_chat demo_env msgs chatting_world)
           = Some (Some r)
           /\ trimmed r = true
           /\ t = pre ++ r ++ post
           /\ forallb isspace pre = true
           /\ forallb isspace post = true))
  /\ gpt demo_env req = inl [{| message_content := Some (py "Hi there! ") |}]
  /\ value_of (call_openai_chat demo_env msgs chatting_world)
     = Some (Some (py "Hi there!"))
  /\ req_messages req
     = [system_prompt;
        {| role := user; content := py "Hello" |};
        {| role := assistant; content := py "Hi there!" |}]
  /\ req_model req = py "gpt-4o-mini".
Proof.
  split.
  - apply (completion_request_is_whole_conversation demo_env settings
             chatting_world).
    cbn. lia.
  - repeat split.
Defined.




(** C9: a submission of the text box always lets the handler end
    normally.  An empty submission leaves the world as it was.  A
    non-empty one appends a user turn with the stripped text and the
    assistant turn after it, and a completion request for the
    conversation ending in that user turn is made; when the submission is
    nothing but whitespace the content of that user turn is empty. *)
Theorem blank_submission_is_sent env ui w s :
  text_input ui = Some s ->
  exists w', text_chat env ui w = Done tt w'
    /\ match s with
       | [] => w' = w
       | _ :: _ =>
           let asked := messages (session w)
                        ++ [{| role := user; content := strip s |}] in
           messages (session w')
           = asked ++ [{| role := assistant; content := reply_text env asked |}]
           /\ In (Chat_create (chat_request asked)) (shown w')
           /\ (forallb isspace s = true -> strip s = [])
       end.
Proof.
  intros Hs.
  destruct (text_chat_spec env ui w) as (w' & Hrun & Hm & _ & _ & Hsh).
  exists w'. split; [exact Hrun|].
  rewrite Hs in Hm, Hsh. destruct s as [|c t]; [exact Hsh|].
  repeat split; [exact Hm | exact Hsh | apply strip_all_space].
Qed.

Lemma blank_submission_is_sent_witness :
  (exists w', text_chat demo_env (typing (py "   ")) fresh_world = Done tt w'
     /\ messages (session w')
        = [system_prompt; {| role := user; content := [] |};
           {| role := assistant; content := py "Hi there!" |}]
     /\ In (Chat_create
              (chat_request [system_prompt; {| role := user; content := [] |}]))
           (shown w'))
  /\ (exists w', text_chat demo_env (typing []) fresh_world = Done tt w'
      /\ w' = fresh_world).
Proof.
  split.
  - destruct (blank_submission_is_sent demo_env (typing (py "   "))
                fresh_world (py "   ") eq_refl) as (w' & Hrun & Hm & Hsh & Hblank).
    exists w'. split; [exact Hrun|].
    cbv zeta in Hm, Hsh. rewrite (Hblank eq_refl) in Hm, Hsh.
    split; [exact Hm | exact Hsh].
  - apply (blank_submission_is_sent demo_env (typing []) fresh_world []).
    reflexivity.
Defined.

Lemma exchanges_user_next (l : list Turn) :
  exchanges l = true ->
  forall i u, l !! i = Some u -> role u = user ->
    exists a, l !! S i = Some a /\ role a = assistant.
Proof.
  remember (length l) as n eqn:Hn. revert l Hn.
  induction n as [n IH] using lt_wf_ind.
  intros [|u0 [|a0 rest]] Hn H i u Hi Hu; cbn in *; try discriminate.
  apply andb_prop in H as [[Hu0 Ha0]%andb_prop Hrest].
  unfold is_user, is_assistant in *.
  destruct i as [|[|i]]; cbn in Hi |- *.
  - exists a0. split; [reflexivity|]. now destruct (role a0).
  - injection Hi as <-. rewrite Hu in Ha0. discriminate.
  - apply (IH (length rest)) with (u := u); auto. lia.
Qed.

Lemma exchanges_assistant_next (l : list Turn) :
  exchanges l = true ->
  forall i a b, l !! i = Some a -> role a = assistant ->
    l !! S i = Some b -> role b = user.
Proof.
  remember (length l) as n eqn:Hn. revert l Hn.
  induction n as [n IH] using lt_wf_ind.
  intros [|u0 [|a0 rest]] Hn H i a b Hi Ha Hb; cbn in *; try discriminate.
  apply andb_prop in H as [[Hu0 Ha0]%andb_prop Hrest].
  unfold is_user, is_assistant in *.
  destruct i as [|[|i]]; cbn in Hi, Hb.
  - injection Hi as <-. rewrite Ha in Hu0. discriminate.
  - destruct rest as [|u1 [|a1 rest']]; cbn in *; try discriminate.
    injection Hb as <-.
    apply andb_prop in Hrest as [[Hu1 _]%andb_prop _].
    unfold is_user in Hu1. now destruct (role u1).
  - apply (IH (length rest)) with (l := rest) (i := i) (a := a); auto. lia.
Qed.

(** C10: after any sequence of user interactions from a new session, the
    conversation is one system turn followed by user/assistant pairs:
    index 0 holds the system turn, every user turn has an assistant turn
    right after it, and what follows an assistant turn, if anything, is a
    user turn; and no interaction from such a session ends in an uncaught
    exception. *)
Theorem conversation_alternates (inputs : list (Env * Widgets)) :
  let ms := messages (session (run_session inputs)) in
  well_shaped ms = true
  /\ (forall env ui e w',
        interaction env ui (run_session inputs) <> Raised e w')
  /\ (exists s, ms !! 0%nat = Some s /\ role s = system)
  /\ (forall i u, ms !! i = Some u -> role u = user ->
        exists a, ms !! S i = Some a /\ role a = assistant)
  /\ (forall i a b, ms !! i = Some a -> role a = assistant ->
        ms !! S i = Some b -> role b = user).
Proof.
  intros ms. pose proof (run_session_shaped inputs) as Hshape.
  unfold shaped in Hshape. fold ms in Hshape.
  split; [exact Hshape|].
  split.
  { intros env ui e w' Hraise.
    pose proof (interaction_keeps_shape env ui _ (run_session_shaped inputs))
      as Hkeep.
    now rewrite Hraise in Hkeep. }
  destruct ms as [|s l]; [discriminate|].
  cbn in Hshape. apply andb_prop in Hshape as [Hs Hl].
  unfold is_system in Hs.
  repeat split.
  - exists s. split; [reflexivity|]. now destruct (role s).
  - intros [|i] u Hi Hu; cbn in Hi.
    + injection Hi as <-. rewrite Hu in Hs. discriminate.
    + cbn. now apply (exchanges_user_next l Hl i u).
  - intros [|i] a b Hi Ha Hb; cbn in Hi, Hb.
    + injection Hi as <-. rewrite Ha in Hs. discriminate.
    + now apply (exchanges_assistant_next l Hl i a b).
Qed.

Example two_turn_session :
  map role
    (messages (session (run_session [(demo_env, typing (py "Hello"));
                                     (offline_env, record_click)])))
  = [system; user; assistant; user; assistant].
Proof. vm_compute. reflexivity. Qed.

(** Scenario 1 of the specification: typing ["Hello"] when the endpoint
    answers ["Hi there!"]. *)
Example hello_session :
  messages (session (run_session [(demo_env, typing (py "Hello"))]))
  = [system_prompt;
     {| role := user; content := py "Hello" |};
     {| role := assistant; content := py "Hi there!" |}].
Proof. vm_compute. reflexivity. Qed.

(** ** The recording files that stay behind *)

(** Clear Chat never touches the files, whatever the session holds. *)
Lemma clear_chat_keeps_files w : files (world_of (clear_chat w)) = files w.
Proof.
  unfold clear_chat. unfold_script.
  now destruct (messages (session w)).
Qed.

(** Record never removes a file: whatever was there is still there. *)
Lemma record_button_keeps_files env ui w path :
  is_Some (files w !! path) ->
  is_Some (files (world_of (record_button env ui w)) !! path).
Proof.
  intros Hin.
  destruct (record_button_spec env ui w) as (w' & -> & _ & _ & Hdom).
  cbn [world_of]. apply elem_of_dom. apply Hdom. now apply elem_of_dom.
Qed.

(** Clear last recording removes the file the pointer names, unless
    [os.remove] raises, and always clears the pointer. *)
Lemma clear_last_recording_removes env w c p :
  last_record_path (session w) = Some (c :: p) ->
  remove_fault env = None ->
  files (world_of (clear_last_recording env w)) !! (c :: p) = None
  /\ last_record_path (session (world_of (clear_last_recording env w))) = None.
Proof.
  intros Hptr Hok.
  destruct (clear_last_recording_spec env w) as (w' & -> & _ & Hl & Hf).
  cbn [world_of]. rewrite Hf, Hptr, Hok. split; [apply lookup_delete_eq | exact Hl].
Qed.

(** * Further properties of the script *)

(** ** Exact effects of the helpers *)

Lemma show_all_nil w : show_all [] w = w.
Proof. destruct w. unfold show_all. cbn. now rewrite app_nil_r. Qed.

Lemma show_all_app evs1 evs2 w :
  show_all evs2 (show_all evs1 w) = show_all (evs1 ++ evs2) w.
Proof. unfold show_all. cbn. now rewrite app_assoc. Qed.

Lemma call_openai_chat_exact env msgs w :
  call_openai_chat env msgs w
  = Done (chat_reply env msgs) (show_all (chat_events env msgs) w).
Proof.
  unfold call_openai_chat, chat_completions_create, chat_reply, chat_events,
    chat_failure, show_all.
  unfold_script.
  destruct (gpt env (chat_request msgs)) as [[|[[t|]] rest]|e]; unfold_script;
    cbn; rewrite <- ?app_assoc; reflexivity.
Qed.

Lemma speak_text_local_exact env text rate w :
  speak_text_local env text rate w
  = Done (spoke env) (show_all (speak_events env text rate) w).
Proof.
  unfold speak_text_local, pyttsx3_say, spoke, speak_events.
  destruct (HAVE_TTS env); cbn [negb andb]; unfold_script.
  - destruct (tts_fault env); unfold_script; reflexivity.
  - now rewrite show_all_nil.
Qed.

Lemma reply_block_exact env ui w :
  reply_block env ui w
  = Done tt
      {| session :=
           {| messages :=
                messages (session w)
                ++ [{| role := assistant;
                       content := reply_text env (messages (session w)) |}];
              last_record_path := last_record_path (session w) |};
         files := files w;
         shown := shown w ++ reply_events env ui (messages (session w)) |}.
Proof.
  unfold reply_block, reply_events, reply_text.
  unfold bind at 1. unfold get_session at 1.
  rewrite (bind_done _ _ _ _ _ (call_openai_chat_exact env _ w)).
  set (reply := match chat_reply env (messages (session w)) with
                | Some r => r | None => placeholder end).
  assert (Hreply : default placeholder (chat_reply env (messages (session w)))
                   = reply)
    by (subst reply;
        destruct (chat_reply env (messages (session w))); reflexivity).
  rewrite Hreply. unfold_script. unfold show_all. cbn [session files shown].
  destruct (auto_speak ui && HAVE_TTS env).
  - rewrite speak_text_local_exact. unfold show_all. cbn [session files shown].
    now rewrite <- !app_assoc.
  - now rewrite <- !app_assoc.
Qed.

Lemma show_turns_exact ms w :
  show_turns ms w
  = Done tt (show_all (map (fun msg => St_chat_message (role msg) (content msg))
                           ms) w).
Proof.
  revert w. induction ms as [|msg rest IH]; intros w; cbn [show_turns map].
  - now rewrite show_all_nil.
  - unfold_script. rewrite IH. unfold show_all. cbn.
    now rewrite <- app_assoc.
Qed.

Lemma show_history_exact w :
  show_history w
  = Done tt (show_all (history_events (messages (session w))) w).
Proof. unfold show_history, bind, get_session. apply show_turns_exact. Qed.

Lemma text_chat_exact env ui w c t :
  text_input ui = Some (c :: t) ->
  let said := {| role := user; content := strip (c :: t) |} in
  let asked := messages (session w) ++ [said] in
  text_chat env ui w
  = Done tt
      {| session :=
           {| messages :=
                asked ++ [{| role := assistant;
                             content := reply_text env asked |}];
              last_record_path := last_record_path (session w) |};
         files := files w;
         shown := shown w
                  ++ St_chat_message user (strip (c :: t))
                  :: reply_events env ui asked |}.
Proof.
  intros Hin said asked. unfold text_chat. rewrite Hin.
  unfold_script. rewrite reply_block_exact.
  cbn [session files shown messages last_record_path].
  now rewrite <- (app_assoc (shown w)).
Qed.

Lemma record_local_files env d sr w :
  exists w', record_local env d sr w = Done (recorded_path env d sr) w'
    /\ session w' = session w
    /\ files w' = files_after_recording env d sr (files w).
Proof.
  unfold record_local, recorded_path, files_after_recording, sd_rec,
    NamedTemporaryFile, sf_write, recording.
  destruct (HAVE_SOUNDDEVICE env); cbn [negb]; unfold_script;
    [|eexists; split; [reflexivity|]; cbn; auto].
  destruct (rec_fault env); unfold_script;
    [eexists; split; [reflexivity|]; cbn; auto|].
  destruct (d * sr <? 0); unfold_script.
  { destruct (tmp_fault env), (write_fault env);
      eexists; (split; [reflexivity|]); cbn; auto. }
  destruct (tmp_fault env); unfold_script;
    [eexists; split; [reflexivity|]; cbn; auto|].
  destruct (write_fault env); unfold_script;
    eexists; (split; [reflexivity|]); cbn; auto.
Qed.

(** ** Counting completion requests *)

Lemma chat_requests_app evs1 evs2 :
  chat_requests (evs1 ++ evs2) = (chat_requests evs1 + chat_requests evs2)%nat.
Proof. unfold chat_requests. now rewrite List.filter_app, length_app. Qed.

Lemma chat_requests_chat_events env msgs :
  chat_requests (chat_events env msgs) = 1%nat.
Proof. unfold chat_events. now destruct (chat_failure env msgs). Qed.

Lemma chat_requests_speak_events env text rate :
  chat_requests (speak_events env text rate) = 0%nat.
Proof.
  unfold speak_events. now destruct (HAVE_TTS env), (tts_fault env).
Qed.

Lemma chat_requests_reply_events env ui msgs :
  chat_requests (reply_events env ui msgs) = 1%nat.
Proof.
  unfold reply_events.
  rewrite chat_requests_app, chat_requests_chat_events.
  change (chat_requests (?e :: ?l)) with (chat_requests l).
  destruct (auto_speak ui && HAVE_TTS env);
    [now rewrite chat_requests_speak_events | reflexivity].
Qed.

(** ** The Record handler, with its files and its requests *)

(** Closes a case in which the world is known and no completion was
    requested. *)
Ltac count_requests :=
  unfold chat_requests; rewrite ?List.filter_app, ?length_app;
  cbn [List.filter length app]; lia.

Ltac no_request :=
  eexists; (split; [reflexivity|]); cbn [session files shown];
  repeat split; count_requests.

Lemma record_local_effects env d sr w :
  exists w', record_local env d sr w = Done (recorded_path env d sr) w'
    /\ session w' = session w
    /\ files w' = files_after_recording env d sr (files w)
    /\ chat_requests (shown w') = chat_requests (shown w).
Proof.
  unfold record_local, recorded_path, files_after_recording, sd_rec,
    NamedTemporaryFile, sf_write, recording.
  destruct (HAVE_SOUNDDEVICE env); cbn [negb]; unfold_script;
    [|no_request].
  destruct (rec_fault env); unfold_script; [no_request|].
  destruct (d * sr <? 0); unfold_script.
  { destruct (tmp_fault env), (write_fault env); no_request. }
  destruct (tmp_fault env); unfold_script; [no_request|].
  destruct (write_fault env); unfold_script; no_request.
Qed.

Lemma transcribe_effects env path w :
  exists w', transcribe_with_openai_whisper env path w
             = Done (transcript env (files w !! path)) w'
    /\ session w' = session w /\ files w' = files w
    /\ chat_requests (shown w') = chat_requests (shown w)
    /\ match files w !! path with
       | Some f =>
           exists rest,
             shown w'
             = shown w
               ++ Transcription_create (py "gpt-4o-mini-transcribe") f :: rest
             /\ match whisper env f with
                | inl _ => rest = []
                | inr e => rest = [St_error (py "Transcription error: " ++ e)]
                end
       | None =>
           exists e, shown w' = shown w ++ [St_error (py "Transcription error: " ++ e)]
       end.
Proof.
  unfold transcribe_with_openai_whisper, open_rb, transcriptions_create,
    transcript.
  unfold_script.
  destruct (files w !! path) as [f|]; unfold_script.
  - destruct (whisper env f); unfold_script;
      eexists; (split; [reflexivity|]); cbn [session files shown];
      (split; [reflexivity|]); (split; [reflexivity|]);
      (split; [count_requests|]);
      eexists; (split; [|reflexivity]); now rewrite <- ?app_assoc.
  - eexists; (split; [reflexivity|]); cbn [session files shown].
    split; [reflexivity|]. split; [reflexivity|].
    split; [count_requests | eauto].
Qed.

Lemma record_button_effects env ui w :
  exists w', record_button env ui w = Done tt w'
    /\ messages (session w') = said Voice env ui (messages (session w))
    /\ files w'
       = files_after_recording env (record_seconds ui) 44100 (files w)
    /\ chat_requests (shown w')
       = (chat_requests (shown w)
          + match user_text Voice env ui with Some _ => 1 | None => 0 end)%nat.
Proof.
  unfold said, user_text, record_button, heard.
  destruct (HAVE_SOUNDDEVICE env) eqn:Hsd; cbn [negb].
  2: { unfold recorded_path, files_after_recording. rewrite Hsd. unfold_script.
       eexists. split; [reflexivity|]. cbn [session files shown].
       repeat split. count_requests. }
  unfold bind at 1. unfold st_info at 1, emit at 1.
  match goal with
  | |- context [bind (record_local env ?d ?sr) _ ?w0] =>
      destruct (record_local_effects env d sr w0)
        as (w1 & Hrec & Hs1 & Hf1 & Hc1);
      rewrite (bind_done _ _ _ _ _ Hrec)
  end.
  cbn [session files shown] in Hs1, Hf1, Hc1.
  assert (Hc1' : chat_requests (shown w1) = chat_requests (shown w))
    by (rewrite Hc1; count_requests).
  clear Hc1.
  pose proof (recorded_path_nonempty env (record_seconds ui) 44100) as Hne.
  pose proof (record_local_spec env (record_seconds ui) 44100 w) as Hspec.
  destruct (recorded_path env (record_seconds ui) 44100) as [[|c p]|] eqn:Hpath;
    [congruence| |].
  2: { unfold_script. exists w1. rewrite Hs1, Hf1, Hc1'. auto. }
  assert (Hfile : files w1 !! (c :: p)
                  = Some (Wav 44100 (recording env (record_seconds ui) 44100))).
  { rewrite Hf1. unfold files_after_recording, recorded_path in *.
    rewrite Hsd in *.
    destruct (rec_fault env); [discriminate|].
    destruct (tmp_fault env); [discriminate|].
    destruct (write_fault env); [discriminate|].
    destruct (record_seconds ui * 44100 <? 0); [discriminate|].
    injection Hpath as <-. apply lookup_insert_eq. }
  unfold_script.
  match goal with
  | |- context [transcribe_with_openai_whisper env ?p ?w0] =>
      destruct (transcribe_effects env p w0) as (w2 & Htr & Hs2 & Hf2 & Hc2 & _);
      rewrite Htr
  end.
  cbn [session files shown] in Hs2, Hf2, Hc2 |- *. rewrite Hfile. clear Htr.
  assert (Hc2' : chat_requests (shown w2) = chat_requests (shown w))
    by (rewrite Hc2, <- Hc1'; count_requests).
  clear Hc2.
  destruct (transcript env _) as [[|c' t']|].
  1, 3: eexists; (split; [reflexivity|]); cbn [session files shown];
    rewrite Hs2, Hf2, Hf1; cbn [messages]; rewrite Hs1;
    repeat split; rewrite chat_requests_app, Hc2'; count_requests.
  rewrite reply_block_exact. cbn [session files shown messages].
  eexists. split; [reflexivity|]. cbn [session files shown messages].
  rewrite Hs2, Hf2, Hf1. cbn [messages]. rewrite Hs1.
  repeat split.
  rewrite !chat_requests_app, chat_requests_reply_events, Hc2'.
  count_requests.
Qed.

(** ** One run, and one interaction, as a whole *)

Lemma said_nonempty p env ui ms : ms <> [] -> said p env ui ms <> [].
Proof.
  unfold said, exchange, append. intros Hne.
  destruct (user_text p env ui); [|exact Hne].
  now destruct ms.
Qed.

Lemma said_head p env ui m0 rest :
  take 1 (said p env ui (m0 :: rest)) = [m0].
Proof. unfold said, exchange, append. now destruct (user_text p env ui). Qed.

Lemma said_grows p env ui ms :
  exists added,
    said p env ui ms = ms ++ added
    /\ (length added = 0 \/ length added = 2)%nat
    /\ (added = [] <-> user_text p env ui = None).
Proof.
  unfold said, exchange, append.
  destruct (user_text p env ui) as [text|].
  - eexists. rewrite <- app_assoc. split; [reflexivity|].
    split; [now right|]. split; discriminate.
  - exists []. rewrite app_nil_r. repeat split; auto.
Qed.

Lemma text_chat_effects env ui w :
  exists w', text_chat env ui w = Done tt w'
    /\ messages (session w') = said Text env ui (messages (session w))
    /\ last_record_path (session w') = last_record_path (session w)
    /\ files w' = files w
    /\ chat_requests (shown w')
       = (chat_requests (shown w)
          + match user_text Text env ui with Some _ => 1 | None => 0 end)%nat.
Proof.
  unfold said, user_text.
  destruct (text_input ui) as [[|c t]|] eqn:Hin.
  1, 3: exists w; unfold text_chat; rewrite Hin; repeat split; lia.
  rewrite (text_chat_exact env ui w c t Hin).
  eexists. split; [reflexivity|]. cbn [session files shown messages
    last_record_path]. repeat split.
  rewrite chat_requests_app.
  change (chat_requests (?e :: ?l)) with (chat_requests l).
  now rewrite chat_requests_reply_events.
Qed.

Lemma script_session env ui w :
  has_key env = true ->
  (clear_chat_clicked ui = true -> messages (session w) <> []) ->
  exists w',
    script env ui w
    = (if clear_chat_clicked ui then Halt true w' else Done tt w')
    /\ messages (session w')
       = conversation_after env ui (messages (session w))
    /\ last_record_path (session w')
       = pointer_after env ui (last_record_path (session w)).
Proof.
  intros Hkey Hne. unfold script, has_key in *.
  destruct (OPENAI_API_KEY env) as [[|k0 k]|]; try discriminate.
  unfold bind at 1. unfold ret at 1.
  rewrite (bind_done _ _ _ _ _ (show_history_exact w)).
  set (w0 := show_all _ w).
  assert (H1 : exists w1,
             (if record_clicked ui then record_button env ui else ret tt) w0
             = Done tt w1
             /\ messages (session w1)
                = (if record_clicked ui
                   then said Voice env ui (messages (session w))
                   else messages (session w))
             /\ last_record_path (session w1)
                = (if record_clicked ui
                   then match recorded_path env (record_seconds ui) 44100 with
                        | Some path => Some path
                        | None => last_record_path (session w)
                        end
                   else last_record_path (session w))).
  { destruct (record_clicked ui); [|exists w0; auto].
    destruct (record_button_spec env ui w0) as (w1 & Hrun & _ & Hl & _).
    destruct (record_button_effects env ui w0) as (w1' & Hrun' & Hm & _).
    rewrite Hrun in Hrun'. injection Hrun' as <-.
    exists w1. auto. }
  destruct H1 as (w1 & Hrun1 & Hm1 & Hl1).
  rewrite (bind_done _ _ _ _ _ Hrun1).
  assert (H2 : exists w2,
             (if clear_recording_clicked ui
              then clear_last_recording env else ret tt) w1 = Done tt w2
             /\ messages (session w2) = messages (session w1)
             /\ last_record_path (session w2)
                = (if clear_recording_clicked ui then None
                   else last_record_path (session w1))).
  { destruct (clear_recording_clicked ui); [|exists w1; auto].
    destruct (clear_last_recording_spec env w1) as (w2 & Hrun & Hm & Hl & _).
    exists w2. auto. }
  destruct H2 as (w2 & Hrun2 & Hm2 & Hl2).
  rewrite (bind_done _ _ _ _ _ Hrun2).
  destruct (text_chat_effects env ui w2) as (w3 & Hrun3 & Hm3 & Hl3 & _).
  rewrite (bind_done _ _ _ _ _ Hrun3).
  unfold conversation_after, pointer_after.
  destruct (clear_chat_clicked ui).
  - assert (Hne3 : messages (session w3) <> []).
    { rewrite Hm3, Hm2, Hm1. apply said_nonempty.
      destruct (record_clicked ui); [apply said_nonempty|]; now apply Hne. }
    destruct (messages (session w3)) as [|m0 rest] eqn:Hms3; [congruence|].
    rewrite (clear_chat_spec w3 m0 rest Hms3).
    eexists. split; [reflexivity|]. cbn [session messages last_record_path].
    split; [|reflexivity].
    rewrite <- Hm1, <- Hm2, <- Hm3. reflexivity.
  - exists w3. split; [reflexivity|]. split.
    + now rewrite Hm3, Hm2, Hm1.
    + rewrite Hl3, Hl2, Hl1.
      destruct (clear_recording_clicked ui), (record_clicked ui); reflexivity.
Qed.

Lemma interaction_session env ui w :
  has_key env = true ->
  messages (session w) <> [] ->
  exists w',
    interaction env ui w = Done tt w'
    /\ messages (session w')
       = conversation_after env ui (messages (session w))
    /\ last_record_path (session w')
       = pointer_after env ui (last_record_path (session w)).
Proof.
  intros Hkey Hne. unfold interaction.
  destruct (script_session env ui w Hkey (fun _ => Hne))
    as (w1 & Hrun & Hm & Hl).
  rewrite Hrun.
  destruct (clear_chat_clicked ui) eqn:Hcc; [|now exists w1].
  destruct (script_session env (idle ui) w1 Hkey) as (w2 & Hrun2 & Hm2 & Hl2);
    [discriminate|].
  cbn [idle clear_chat_clicked] in Hrun2. rewrite Hrun2.
  exists w2. split; [reflexivity|].
  rewrite Hm2, Hl2, Hm, Hl. split; reflexivity.
Qed.

(** ** Properties of the conversation that every run keeps *)

Section Invariant.

Variable P : list Turn -> Prop.
Hypothesis P_nonempty : forall ms, P ms -> ms <> [].
Hypothesis P_exchange :
  forall env ms text,
    P ms -> trimmed text = true -> P (exchange env ms text).
Hypothesis P_reset : forall m0 rest, P (m0 :: rest) -> P [m0].

Lemma said_inv p env ui ms : P ms -> P (said p env ui ms).
Proof.
  intros HP. unfold said.
  destruct (user_text p env ui) as [text|] eqn:Htext; [|exact HP].
  apply P_exchange; [exact HP|]. now apply (trimmed_user_text p env ui).
Qed.

Lemma conversation_after_inv env ui ms :
  P ms -> P (conversation_after env ui ms).
Proof.
  intros HP. unfold conversation_after.
  assert (H2 : P (said Text env ui
                    (if record_clicked ui then said Voice env ui ms else ms))).
  { apply said_inv. destruct (record_clicked ui); [now apply said_inv|exact HP]. }
  destruct (clear_chat_clicked ui); [|exact H2].
  destruct (said Text env ui _) as [|m0 rest] eqn:Hs.
  - now apply P_nonempty in H2.
  - cbn. now apply (P_reset m0 rest).
Qed.

Lemma interaction_inv env ui w :
  P (messages (session w)) ->
  P (messages (session (world_of (interaction env ui w)))).
Proof.
  intros HP.
  destruct (has_key env) eqn:Hkey.
  - destruct (interaction_session env ui w Hkey (P_nonempty _ HP))
      as (w' & Hrun & Hm & _).
    rewrite Hrun. cbn [world_of]. rewrite Hm.
    now apply conversation_after_inv.
  - unfold interaction, script, has_key in *.
    destruct (OPENAI_API_KEY env) as [[|k0 k]|]; try discriminate;
      exact HP.
Qed.

Lemma run_from_inv inputs w :
  P (messages (session w)) -> P (messages (session (run_from w inputs))).
Proof.
  revert w. induction inputs as [|[env ui] rest IH]; intros w HP; [exact HP|].
  cbn [run_from]. apply IH. now apply interaction_inv.
Qed.

End Invariant.

(** * More properties, one per entry *)

(** X1: without an API key (unset or empty) a run stops at the startup
    check whatever controls fired: it halts without asking for a rerun,
    shows one error, and leaves the session and the files untouched, so
    nothing is recorded, transcribed or requested. *)
Theorem missing_key_halts env ui w :
  OPENAI_API_KEY env = None \/ OPENAI_API_KEY env = Some [] ->
  exists w' msg,
    interaction env ui w = Halt false w'
    /\ session w' = session w
    /\ files w' = files w
    /\ shown w' = shown w ++ [St_error msg].
Proof.
  intros Hkey. unfold interaction, script.
  destruct Hkey as [-> | ->]; unfold_script;
    do 2 eexists; (split; [reflexivity|]); cbn; auto.
Qed.

Lemma missing_key_halts_witness :
  exists w' msg,
    interaction keyless_env all_clicked recorded_world = Halt false w'
    /\ session w' = session recorded_world
    /\ files w' = files recorded_world
    /\ shown w' = shown recorded_world ++ [St_error msg].
Proof.
  apply (missing_key_halts keyless_env all_clicked recorded_world).
  left. reflexivity.
Defined.

(** X2: in every session, after any interactions, index 0 of the
    conversation still holds the system turn with the default
    instructions the session started with. *)
Theorem system_prompt_never_changes (inputs : list (Env * Widgets)) :
  messages (session (run_session inputs)) !! 0%nat = Some system_prompt.
Proof.
  unfold run_session.
  apply (run_from_inv (fun ms => ms !! 0%nat = Some system_prompt)).
  - intros [|m ms]; [discriminate|discriminate].
  - intros env [|m ms] text H _; [discriminate|exact H].
  - intros m0 rest H. exact H.
  - reflexivity.
Qed.

(** X3: in every session, after any interactions, no turn of the
    conversation starts or ends with whitespace: user text and replies
    are stripped before they are stored, and the placeholder and the
    system prompt have none. *)
Theorem every_turn_is_trimmed (inputs : list (Env * Widgets)) :
  forallb (fun t => trimmed (content t))
          (messages (session (run_session inputs))) = true.
Proof.
  unfold run_session.
  apply (run_from_inv
           (fun ms => ms <> []
                      /\ forallb (fun t => trimmed (content t)) ms = true)).
  - now intros ms [Hne _].
  - intros env ms text [Hne Hall] Htext. unfold exchange, append. split.
    + now destruct ms.
    + rewrite !forallb_app, Hall. cbn.
      now rewrite Htext, trimmed_reply_text.
  - intros m0 rest [_ Hall]. split; [discriminate|].
    cbn in *. apply andb_prop in Hall as [-> _]. reflexivity.
  - split; [discriminate|]. vm_compute. reflexivity.
Qed.

(** X4: a run in which Clear Chat did not fire only appends: the old
    conversation is a prefix of the new one, and zero, two or four turns
    were added (one user/assistant pair per handler that got a text). *)
Theorem conversation_only_grows env ui w :
  clear_chat_clicked ui = false ->
  exists added,
    messages (session (world_of (interaction env ui w)))
    = messages (session w) ++ added
    /\ (length added = 0 \/ length added = 2 \/ length added = 4)%nat.
Proof.
  intros Hcc.
  destruct (has_key env) eqn:Hkey.
  - destruct (script_session env ui w Hkey) as (w' & Hrun & Hm & _);
      [congruence|].
    unfold interaction. rewrite Hrun, Hcc. cbn [world_of]. rewrite Hm.
    unfold conversation_after. rewrite Hcc.
    set (m1 := if record_clicked ui then _ else _).
    assert (H1 : exists a1, m1 = messages (session w) ++ a1
                            /\ (length a1 = 0 \/ length a1 = 2)%nat).
    { subst m1. destruct (record_clicked ui).
      - destruct (said_grows Voice env ui (messages (session w)))
          as (a1 & -> & Hlen & _). now exists a1.
      - exists []. rewrite app_nil_r. auto. }
    destruct H1 as (a1 & -> & Hlen1).
    destruct (said_grows Text env ui (messages (session w) ++ a1))
      as (a2 & -> & Hlen2 & _).
    exists (a1 ++ a2). rewrite app_assoc. split; [reflexivity|].
    rewrite length_app. lia.
  - exists []. rewrite app_nil_r. split; [|now left].
    unfold interaction, script, has_key in *.
    destruct (OPENAI_API_KEY env) as [[|k0 k]|]; try discriminate;
      reflexivity.
Qed.

Lemma conversation_only_grows_witness :
  exists added,
    messages (session (world_of (interaction demo_env (typing (py "Hello"))
                                   fresh_world)))
    = messages (session fresh_world) ++ added
    /\ (length added = 0 \/ length added = 2 \/ length added = 4)%nat.
Proof.
  apply (conversation_only_grows demo_env (typing (py "Hello")) fresh_world).
  reflexivity.
Defined.

(** X5: with the key set and a non-empty conversation, an interaction in
    which Clear Chat fired ends normally (the rerun it asks for
    completes) with only the turn that was at index 0 left and no
    current recording, whatever else fired in the same run: a text typed
    or a clip recorded in that run is answered and then dropped. *)
Theorem clear_chat_wins env ui w k0 k m0 rest :
  OPENAI_API_KEY env = Some (k0 :: k) ->
  messages (session w) = m0 :: rest ->
  clear_chat_clicked ui = true ->
  exists w',
    interaction env ui w = Done tt w'
    /\ messages (session w') = [m0]
    /\ last_record_path (session w') = None.
Proof.
  intros Hkey Hms Hcc.
  destruct (interaction_session env ui w) as (w' & Hrun & Hm & Hl).
  { unfold has_key. now rewrite Hkey. }
  { rewrite Hms. discriminate. }
  exists w'. split; [exact Hrun|].
  rewrite Hm, Hl. unfold conversation_after, pointer_after.
  rewrite Hcc, Hms. split; [|reflexivity].
  destruct (record_clicked ui).
  - destruct (said_grows Voice env ui (m0 :: rest)) as (a1 & -> & _).
    apply (said_head Text env ui m0 (rest ++ a1)).
  - apply said_head.
Qed.

Lemma clear_chat_wins_witness :
  exists w',
    interaction demo_env all_clicked recorded_world = Done tt w'
    /\ messages (session w') = [system_prompt]
    /\ last_record_path (session w') = None.
Proof.
  apply (clear_chat_wins demo_env all_clicked recorded_world
           (N_of_ascii "s") (py "k-demo") system_prompt []);
    reflexivity.
Defined.

(** X6: with the key set, a run in which no control fired (such as the
    run after a rerun request) renders the history, that is every turn
    but the one at index 0, in order and under its own role, and changes
    nothing else: session and files stay as they are. *)
Theorem idle_run_only_shows_history env ui w k0 k :
  OPENAI_API_KEY env = Some (k0 :: k) ->
  script env (idle ui) w
  = Done tt
      {| session := session w;
         files := files w;
         shown := shown w
                  ++ map (fun msg => St_chat_message (role msg) (content msg))
                         (drop 1 (messages (session w))) |}.
Proof.
  intros Hkey. unfold script. rewrite Hkey.
  unfold bind at 1. unfold ret at 1.
  rewrite (bind_done _ _ _ _ _ (show_history_exact w)).
  reflexivity.
Qed.

Lemma idle_run_only_shows_history_witness :
  script demo_env (idle all_clicked) chatting_world
  = Done tt
      {| session := session chatting_world;
         files := files chatting_world;
         shown := [St_chat_message user (py "Hello");
                   St_chat_message assistant (py "Hi there!")] |}.
Proof.
  exact (eq_trans
           (idle_run_only_shows_history demo_env all_clicked chatting_world
              (N_of_ascii "s") (py "k-demo") eq_refl)
           eq_refl).
Defined.

(** X7: a handler makes exactly one completion request for each
    user/assistant pair it appends, and none when it appends nothing: on
    either path the number of requests grows by [n] and the conversation
    by [2 * n] turns, with [n] at most 1. *)
Theorem one_request_per_exchange p env ui w :
  exists w' n,
    handler p env ui w = Done tt w'
    /\ chat_requests (shown w') = (chat_requests (shown w) + n)%nat
    /\ length (messages (session w'))
       = (length (messages (session w)) + 2 * n)%nat
    /\ (n <= 1)%nat.
Proof.
  assert (H : exists w',
             handler p env ui w = Done tt w'
             /\ messages (session w') = said p env ui (messages (session w))
             /\ chat_requests (shown w')
                = (chat_requests (shown w)
                   + match user_text p env ui with
                     | Some _ => 1 | None => 0 end)%nat).
  { destruct p; cbn [handler].
    - destruct (record_button_effects env ui w) as (w' & Hrun & Hm & _ & Hc).
      now exists w'.
    - destruct (text_chat_effects env ui w) as (w' & Hrun & Hm & _ & _ & Hc).
      now exists w'. }
  destruct H as (w' & Hrun & Hm & Hc).
  exists w', (match user_text p env ui with Some _ => 1 | None => 0 end)%nat.
  split; [exact Hrun|]. split; [exact Hc|].
  rewrite Hm. unfold said, exchange, append.
  destruct (user_text p env ui); rewrite ?length_app; cbn; lia.
Qed.

(** X8: [speak_text_local] never raises and never touches the session or
    the files.  It returns [True] exactly when pyttsx3 is present and the
    engine did not fail, and then the text was spoken once (at the
    requested rate unless setting the rate failed, which is swallowed);
    without pyttsx3 it does nothing; an engine failure gives one warning
    and [False]. *)
Theorem speech_never_disturbs_the_session env text rate w :
  exists b w',
    speak_text_local env text rate w = Done b w'
    /\ session w' = session w
    /\ files w' = files w
    /\ (b = true <-> HAVE_TTS env = true /\ tts_fault env = None)
    /\ (b = true ->
        shown w'
        = shown w
          ++ [Tts_say text (if tts_rate_fault env then None else Some rate)])
    /\ (HAVE_TTS env = false -> shown w' = shown w)
    /\ (forall e, HAVE_TTS env = true -> tts_fault env = Some e ->
          shown w' = shown w ++ [St_warning (py "TTS error: " ++ e)]).
Proof.
  exists (spoke env), (show_all (speak_events env text rate) w).
  split; [apply speak_text_local_exact|].
  unfold spoke, speak_events, show_all. cbn [session files shown].
  destruct (HAVE_TTS env), (tts_fault env) as [e|]; cbn;
    repeat split; try congruence; try tauto;
    try (intros; now rewrite app_nil_r);
    try (intros [? ?]; congruence).
Qed.

(** X9: the reply block requests the completion first, then shows the
    reply, then speaks it.  What is shown, what is stored and what is
    spoken are the same text; it is spoken only with auto-speak on and
    pyttsx3 present, and with auto-speak off nothing follows the reply.
    Between the request and the reply there is at most one error line,
    there exactly when the reply is the placeholder for a failed call. *)
Theorem reply_is_shown_then_spoken env ui w :
  exists w' reply errors speech,
    reply_block env ui w = Done tt w'
    /\ messages (session w')
       = messages (session w) ++ [{| role := assistant; content := reply |}]
    /\ shown w'
       = shown w
         ++ Chat_create (chat_request (messages (session w)))
         :: errors ++ St_chat_message assistant reply :: speech
    /\ (errors = []
        \/ exists e, errors = [St_error (py "OpenAI call failed: " ++ e)]
                     /\ reply = placeholder)
    /\ (forall text rate, In (Tts_say text rate) speech ->
          text = reply /\ auto_speak ui = true /\ HAVE_TTS env = true)
    /\ (auto_speak ui = true -> HAVE_TTS env = true -> tts_fault env = None ->
        speech = [Tts_say reply (if tts_rate_fault env then None
                                 else Some (tts_rate ui))])
    /\ (auto_speak ui = false -> speech = []).
Proof.
  set (msgs := messages (session w)).
  exists
    {| session :=
         {| messages :=
              msgs ++ [{| role := assistant; content := reply_text env msgs |}];
            last_record_path := last_record_path (session w) |};
       files := files w;
       shown := shown w ++ reply_events env ui msgs |},
    (reply_text env msgs),
    (match chat_failure env msgs with
     | Some e => [St_error (py "OpenAI call failed: " ++ e)]
     | None => []
     end),
    (if auto_speak ui && HAVE_TTS env
     then speak_events env (reply_text env msgs) (tts_rate ui) else []).
  split; [apply reply_block_exact|].
  cbn [session files shown messages].
  split; [reflexivity|]. split.
  { reflexivity. }
  split.
  { unfold chat_failure, reply_text, chat_reply.
    destruct (gpt env (chat_request msgs)) as [[|[[t|]] rest]|e]; cbn; eauto. }
  unfold speak_events. split; [|split].
  - intros text rate Hin.
    destruct (auto_speak ui), (HAVE_TTS env); cbn [andb] in Hin;
      try contradiction.
    destruct (tts_fault env); cbn [In] in Hin; destruct Hin as [Heq|[]].
    + discriminate Heq.
    + injection Heq as <- _. auto.
  - intros -> -> ->. reflexivity.
  - intros ->. reflexivity.
Qed.

(** X10: the placeholder stands in only for a missing reply.  When the
    first choice of the answer is nothing but whitespace, the call
    returns the empty text, and the assistant turn that is stored has
    empty content, not the placeholder. *)
Theorem blank_reply_is_stored env ui w t rest :
  gpt env (chat_request (messages (session w)))
  = inl ({| message_content := Some t |} :: rest) ->
  forallb isspace t = true ->
  exists w',
    reply_block env ui w = Done tt w'
    /\ messages (session w')
       = messages (session w) ++ [{| role := assistant; content := [] |}].
Proof.
  intros Hgpt Hblank. eexists. split; [apply reply_block_exact|].
  cbn [session messages]. unfold reply_text, chat_reply. rewrite Hgpt.
  cbn. now rewrite strip_all_space.
Qed.

Lemma blank_reply_is_stored_witness :
  exists w',
    reply_block blank_env settings fresh_world = Done tt w'
    /\ messages (session w')
       = messages (session fresh_world)
         ++ [{| role := assistant; content := [] |}].
Proof.
  apply (blank_reply_is_stored blank_env settings fresh_world (py "  ") []);
    reflexivity.
Defined.

(** X11: [call_openai_chat] never raises and never touches the session
    or the files.  It returns [None] exactly when the endpoint raised,
    answered with no choice, or answered with a first choice that has no
    content; in those cases one error line follows the request, and
    otherwise nothing does. *)
Theorem no_reply_exactly_on_failure env msgs w :
  exists r w',
    call_openai_chat env msgs w = Done r w'
    /\ session w' = session w
    /\ files w' = files w
    /\ (r = None <->
        (exists e, gpt env (chat_request msgs) = inr e)
        \/ gpt env (chat_request msgs) = inl []
        \/ exists rest,
             gpt env (chat_request msgs)
             = inl ({| message_content := None |} :: rest))
    /\ (r = None ->
        exists e,
          shown w'
          = shown w ++ [Chat_create (chat_request msgs);
                        St_error (py "OpenAI call failed: " ++ e)])
    /\ (r <> None ->
        shown w' = shown w ++ [Chat_create (chat_request msgs)]).
Proof.
  exists (chat_reply env msgs), (show_all (chat_events env msgs) w).
  split; [apply call_openai_chat_exact|].
  unfold chat_reply, chat_events, chat_failure, show_all.
  cbn [session files shown].
  destruct (gpt env (chat_request msgs)) as [[|[[t|]] rest]|e]; cbn;
    repeat split; eauto; try congruence;
    try (intros [[? [=]]|[[=]|[? [=]]]]).
Qed.

(** X12: a non-empty submission of the text box is stored stripped, and
    the user turn it leaves has empty content exactly when the
    submission was nothing but whitespace. *)
Theorem text_turn_empty_iff_blank env ui w c t :
  text_input ui = Some (c :: t) ->
  exists w' said_turn answer,
    text_chat env ui w = Done tt w'
    /\ messages (session w') = messages (session w) ++ [said_turn; answer]
    /\ role said_turn = user
    /\ role answer = assistant
    /\ content said_turn = strip (c :: t)
    /\ (content said_turn = [] <-> forallb isspace (c :: t) = true).
Proof.
  intros Hin. do 3 eexists.
  split; [apply (text_chat_exact env ui w c t Hin)|].
  cbn [session messages]. rewrite <- app_assoc. cbn [app role content].
  repeat split; [apply strip_nil_all_space | apply strip_all_space].
Qed.

Lemma text_turn_empty_iff_blank_witness :
  exists w' said_turn answer,
    text_chat demo_env (typing (py " hi ")) fresh_world = Done tt w'
    /\ messages (session w')
       = messages (session fresh_world) ++ [said_turn; answer]
    /\ role said_turn = user
    /\ role answer = assistant
    /\ content said_turn = strip (py " hi ")
    /\ (content said_turn = [] <-> forallb isspace (py " hi ") = true).
Proof.
  apply (text_turn_empty_iff_blank demo_env (typing (py " hi ")) fresh_world
           (N_of_ascii " ") (py "hi ")).
  reflexivity.
Defined.

(** X13: the Record handler never raises, and it either leaves the
    conversation as it is or appends one user turn followed by one
    assistant turn; the user turn it appends is never empty (unlike on
    the text path) and has no whitespace at its ends. *)
Theorem voice_turn_is_never_empty env ui w :
  exists w',
    record_button env ui w = Done tt w'
    /\ (messages (session w') = messages (session w)
        \/ exists c t answer,
             messages (session w')
             = messages (session w)
               ++ [{| role := user; content := c :: t |}; answer]
             /\ role answer = assistant
             /\ trimmed (c :: t) = true).
Proof.
  destruct (record_button_effects env ui w) as (w' & Hrun & Hm & _).
  exists w'. split; [exact Hrun|]. rewrite Hm. unfold said.
  destruct (user_text Voice env ui) as [text|] eqn:Htext; [|now left].
  right. pose proof (trimmed_user_text _ _ _ _ Htext) as Htrim.
  cbn [user_text] in Htext.
  destruct (heard env ui) as [[|c t]|]; try discriminate.
  injection Htext as <-.
  exists c, t. eexists. unfold exchange, append.
  rewrite <- app_assoc. cbn [app]. split; [reflexivity|]. now split.
Qed.

(** X14: [transcribe_with_openai_whisper] never raises and never touches
    the session or the files.  For a path that holds no file it returns
    [None] after one error line, without contacting the endpoint.  For a
    file it makes exactly one request, for the model
    gpt-4o-mini-transcribe, and returns the text of the answer trimmed
    (no whitespace at either end, and equal to the answer with nothing
    but whitespace taken off before and after), or [None] after one
    error line when the endpoint raised. *)
Theorem transcription_outcomes env path w :
  exists r w',
    transcribe_with_openai_whisper env path w = Done r w'
    /\ session w' = session w
    /\ files w' = files w
    /\ match files w !! path with
       | None =>
           r = None
           /\ exists e,
                shown w' = shown w ++ [St_error (py "Transcription error: " ++ e)]
       | Some f =>
           match whisper env f with
           | inl text =>
               r = Some (strip text)
               /\ (exists r0 pre post,
                     r = Some r0
                     /\ trimmed r0 = true
                     /\ text = pre ++ r0 ++ post
                     /\ forallb isspace pre = true
                     /\ forallb isspace post = true)
               /\ shown w'
                  = shown w
                    ++ [Transcription_create (py "gpt-4o-mini-transcribe") f]
           | inr e =>
               r = None
               /\ shown w'
                  = shown w
                    ++ [Transcription_create (py "gpt-4o-mini-transcribe") f;
                        St_error (py "Transcription error: " ++ e)]
           end
       end.
Proof.
  destruct (transcribe_effects env path w) as (w' & Hrun & Hs & Hf & _ & Hsh).
  exists (transcript env (files w !! path)), w'.
  split; [exact Hrun|]. split; [exact Hs|]. split; [exact Hf|].
  unfold transcript.
  destruct (files w !! path) as [f|]; [|auto].
  destruct Hsh as (rest & Hsh & Hrest).
  destruct (whisper env f) as [text|e]; subst rest; [|auto].
  split; [reflexivity|]. split; [|exact Hsh].
  destruct (strip_decompose text) as (pre & post & Ht & Hpre & Hpost).
  exists (strip text), pre, post.
  split; [reflexivity|]. split; [apply trimmed_strip|]. now split.
Qed.

(** The clip of [chatting_world], transcribed on the sample machine: the
    answer [" what time is it  "] comes back without its blanks. *)
Example demo_transcription :
  value_of (transcribe_with_openai_whisper demo_env old_clip chatting_world)
  = Some (Some (py "what time is it")).
Proof. vm_compute. reflexivity. Qed.

(** ** Recordings on disk *)

Lemma files_after_recording_ok env d sr fs :
  HAVE_SOUNDDEVICE env = true ->
  rec_fault env = None -> tmp_fault env = None -> write_fault env = None ->
  0 <= d * sr ->
  recorded_path env d sr = Some (tmp_name env ++ py ".wav")
  /\ files_after_recording env d sr fs
     = <[tmp_name env ++ py ".wav" := Wav sr (recording env d sr)]> fs.
Proof.
  intros Hsd Hrec Htmp Hwr Hpos.
  unfold recorded_path, files_after_recording.
  rewrite Hsd, Hrec, Htmp, Hwr.
  destruct (d * sr <? 0) eqn:Hneg; [lia|].
  split; [reflexivity|]. apply insert_insert_eq.
Qed.

Lemma record_button_outcome env ui w :
  exists w', record_button env ui w = Done tt w'
    /\ messages (session w') = said Voice env ui (messages (session w))
    /\ last_record_path (session w')
       = match recorded_path env (record_seconds ui) 44100 with
         | Some path => Some path
         | None => last_record_path (session w)
         end
    /\ files w'
       = files_after_recording env (record_seconds ui) 44100 (files w).
Proof.
  destruct (record_button_spec env ui w) as (w1 & Hrun & _ & Hl & _).
  destruct (record_button_effects env ui w) as (w' & Hrun' & Hm & Hf & _).
  rewrite Hrun in Hrun'. injection Hrun' as <-.
  now exists w1.
Qed.

Lemma clear_last_recording_exact env w :
  clear_last_recording env w
  = Done tt
      {| session := {| messages := messages (session w);
                       last_record_path := None |};
         files := match last_record_path (session w), remove_fault env with
                  | Some (c :: p), None => delete (c :: p) (files w)
                  | _, _ => files w
                  end;
         shown := shown w ++ [St_info (py "Cleared last recording (if any).")] |}.
Proof.
  unfold clear_last_recording, os_remove. unfold_script.
  destruct (last_record_path (session w)) as [[|c p]|]; unfold_script.
  1, 3: now destruct (remove_fault env).
  destruct (files w !! (c :: p)) eqn:Hfile; unfold_script.
  - now destruct (remove_fault env).
  - destruct (remove_fault env); [reflexivity|].
    now rewrite (delete_id _ _ Hfile).
Qed.

(** X15: when the libraries are present and recording, creating the
    temporary file and writing it do not raise, the Record handler makes
    the new clip the current recording before it transcribes: whatever
    the transcription and the completion do afterwards, the pointer names
    the new [.wav] file, and that file holds [record_seconds * 44100]
    mono frames at 44100 Hz. *)
Theorem record_points_to_the_new_clip env ui w :
  HAVE_SOUNDDEVICE env = true ->
  rec_fault env = None -> tmp_fault env = None -> write_fault env = None ->
  1 <= record_seconds ui <= 20 ->
  exists w' data,
    record_button env ui w = Done tt w'
    /\ last_record_path (session w') = Some (tmp_name env ++ py ".wav")
    /\ files w' !! (tmp_name env ++ py ".wav") = Some (Wav 44100 data)
    /\ Z.of_nat (length data) = record_seconds ui * 44100
    /\ Forall (fun frame => length frame = 1%nat) data.
Proof.
  intros Hsd Hrec Htmp Hwr Hsecs.
  assert (Hpos : 0 <= record_seconds ui * 44100) by lia.
  destruct (files_after_recording_ok env (record_seconds ui) 44100 (files w)
              Hsd Hrec Htmp Hwr Hpos) as [Hpath Hfiles].
  destruct (record_button_outcome env ui w) as (w' & Hrun & _ & Hl & Hf).
  exists w', (recording env (record_seconds ui) 44100).
  split; [exact Hrun|].
  rewrite Hl, Hf, Hpath, Hfiles. split; [reflexivity|].
  split; [apply lookup_insert_eq|].
  destruct (recording_shape env (record_seconds ui) 44100 Hpos)
    as (Hlen & Hall & _).
  now split.
Qed.

Lemma record_points_to_the_new_clip_witness :
  exists w' data,
    record_button silent_env settings fresh_world = Done tt w'
    /\ last_record_path (session w') = Some (tmp_name silent_env ++ py ".wav")
    /\ files w' !! (tmp_name silent_env ++ py ".wav") = Some (Wav 44100 data)
    /\ Z.of_nat (length data) = record_seconds settings * 44100
    /\ Forall (fun frame => length frame = 1%nat) data.
Proof.
  apply (record_points_to_the_new_clip silent_env settings fresh_world);
    try reflexivity.
  cbn. lia.
Defined.

(** X16: when recording fails (libraries missing, or the capture, the
    creation of the temporary file or the write raised), the Record
    handler ends normally with the session exactly as it was: the
    conversation is unchanged, the previous recording stays the current
    one, and no file that was there is removed. *)
Theorem failed_recording_keeps_session env ui w :
  HAVE_SOUNDDEVICE env = false \/ rec_fault env <> None
  \/ tmp_fault env <> None \/ write_fault env <> None ->
  exists w',
    record_button env ui w = Done tt w'
    /\ session w' = session w
    /\ dom (files w) ⊆ dom (files w').
Proof.
  intros Hfail.
  assert (Hpath : recorded_path env (record_seconds ui) 44100 = None).
  { unfold recorded_path.
    destruct (HAVE_SOUNDDEVICE env); [|reflexivity].
    destruct (rec_fault env); [reflexivity|].
    destruct (tmp_fault env); [reflexivity|].
    destruct (write_fault env); [reflexivity|].
    destruct Hfail as [?|[?|[?|?]]]; congruence. }
  destruct (record_button_spec env ui w) as (w' & Hrun & Hm & Hl & Hdom).
  exists w'. split; [exact Hrun|]. split; [|exact Hdom].
  unfold heard in Hm. rewrite Hpath in Hm, Hl.
  destruct (session w') as [ms' p'], (session w) as [ms p].
  cbn in Hm, Hl. now subst.
Qed.

Lemma failed_recording_keeps_session_witness :
  exists w',
    record_button broken_mic_env record_click recorded_world = Done tt w'
    /\ session w' = session recorded_world
    /\ dom (files recorded_world) ⊆ dom (files w').
Proof.
  apply (failed_recording_keeps_session broken_mic_env record_click
           recorded_world).
  right. left. discriminate.
Defined.

(** X17: when only the write of the clip raises, [record_local] has
    already created the temporary file, and nothing removes it: the
    handler ends with the session as it was, and an empty file under the
    new name stays on disk, referenced by nothing the handler set. *)
Theorem failed_write_leaves_empty_file env ui w e :
  HAVE_SOUNDDEVICE env = true ->
  rec_fault env = None -> tmp_fault env = None -> write_fault env = Some e ->
  0 <= record_seconds ui ->
  exists w',
    record_button env ui w = Done tt w'
    /\ session w' = session w
    /\ files w' = <[tmp_name env ++ py ".wav" := EmptyFile]> (files w).
Proof.
  intros Hsd Hrec Htmp Hwr Hsecs.
  destruct (record_button_outcome env ui w) as (w' & Hrun & Hm & Hl & Hf).
  exists w'. split; [exact Hrun|].
  unfold said, user_text, heard in Hm.
  unfold recorded_path in Hm, Hl. unfold files_after_recording in Hf.
  rewrite Hsd, Hrec, Htmp, Hwr in *.
  destruct (record_seconds ui * 44100 <? 0) eqn:Hneg; [lia|].
  split; [|exact Hf].
  destruct (session w') as [ms' p'], (session w) as [ms p].
  cbn in Hm, Hl. now subst.
Qed.

Lemma failed_write_leaves_empty_file_witness :
  exists w',
    record_button full_disk_env record_click fresh_world = Done tt w'
    /\ session w' = session fresh_world
    /\ files w'
       = <[tmp_name full_disk_env ++ py ".wav" := EmptyFile]>
           (files fresh_world).
Proof.
  apply (failed_write_leaves_empty_file full_disk_env record_click fresh_world
           (py "Error opening file: System error."));
    try reflexivity.
  cbn. lia.
Defined.

(** X18: Clear last recording never raises, keeps the conversation,
    always clears the pointer and shows one info line.  It touches no
    file but the one the pointer named; that file is gone afterwards when
    [os.remove] did not raise, and when it raised the failure is
    swallowed and every file is left as it was. *)
Theorem clear_last_recording_effects env w :
  exists w',
    clear_last_recording env w = Done tt w'
    /\ messages (session w') = messages (session w)
    /\ last_record_path (session w') = None
    /\ shown w'
       = shown w ++ [St_info (py "Cleared last recording (if any).")]
    /\ (forall q, last_record_path (session w) <> Some q ->
                  files w' !! q = files w !! q)
    /\ (forall c p, last_record_path (session w) = Some (c :: p) ->
                    remove_fault env = None ->
                    files w' !! (c :: p) = None)
    /\ (remove_fault env <> None -> files w' = files w).
Proof.
  eexists. split; [apply clear_last_recording_exact|].
  cbn [session files shown messages last_record_path].
  repeat split.
  - intros q Hq.
    destruct (last_record_path (session w)) as [[|c p]|]; try reflexivity.
    destruct (remove_fault env); [reflexivity|].
    apply lookup_delete_ne. congruence.
  - intros c p -> ->. apply lookup_delete_eq.
  - intros Hfault.
    destruct (last_record_path (session w)) as [[|c p]|]; try reflexivity.
    destruct (remove_fault env); [reflexivity | congruence].
Qed.

(** X19: clearing the last recording a second time changes nothing
    more: after the first clearing the pointer is [None], so the second
    one leaves the session and the files exactly as the first left
    them. *)
Theorem clearing_twice_is_clearing_once env env' w :
  exists w1 w2,
    clear_last_recording env w = Done tt w1
    /\ clear_last_recording env' w1 = Done tt w2
    /\ session w2 = session w1
    /\ files w2 = files w1.
Proof.
  do 2 eexists. split; [apply clear_last_recording_exact|].
  split; [apply clear_last_recording_exact|].
  cbn [session files messages last_record_path]. split; reflexivity.
Qed.

(** X20: recording and then clearing the last recording gives the disk
    back.  When the clip is recorded without a failure under a name no
    file had, and [os.remove] does not raise in the later run, the files
    after Record followed by Clear last recording are exactly the files
    before, and no recording is current. *)
Theorem record_then_clear_restores_files env env' ui w :
  HAVE_SOUNDDEVICE env = true ->
  rec_fault env = None -> tmp_fault env = None -> write_fault env = None ->
  0 <= record_seconds ui ->
  files w !! (tmp_name env ++ py ".wav") = None ->
  remove_fault env' = None ->
  exists w1 w2,
    record_button env ui w = Done tt w1
    /\ clear_last_recording env' w1 = Done tt w2
    /\ files w2 = files w
    /\ last_record_path (session w2) = None.
Proof.
  intros Hsd Hrec Htmp Hwr Hsecs Hfresh Hrm.
  assert (Hpos : 0 <= record_seconds ui * 44100) by lia.
  destruct (files_after_recording_ok env (record_seconds ui) 44100 (files w)
              Hsd Hrec Htmp Hwr Hpos) as [Hpath Hfiles].
  destruct (record_button_outcome env ui w) as (w1 & Hrun & _ & Hl & Hf).
  exists w1. eexists. split; [exact Hrun|].
  split; [apply clear_last_recording_exact|].
  cbn [session files last_record_path]. split; [|reflexivity].
  rewrite Hl, Hpath, Hrm, Hf, Hfiles.
  destruct (tmp_name env ++ py ".wav") as [|c p] eqn:Hname.
  { now apply py_app_nonempty in Hname. }
  rewrite delete_insert_eq. now apply delete_id.
Qed.

Lemma record_then_clear_restores_files_witness :
  exists w1 w2,
    record_button silent_env record_click recorded_world = Done tt w1
    /\ clear_last_recording demo_env w1 = Done tt w2
    /\ files w2 = files recorded_world
    /\ last_record_path (session w2) = None.
Proof.
  apply (record_then_clear_restores_files silent_env demo_env record_click
           recorded_world); try reflexivity.
  cbn. lia.
Defined.
